(** * benchmark-util: the runner of [src/index.js]

    A shallow embedding of the [Benchmark] class: registration ([add]), the
    configuration accessors, [abort] and [run] with its sampling engine
    ([doRun]) and its aggregation.

    Numbers.  A JavaScript number is modelled as an exact rational extended
    with [NaN] and the two infinities ([number]); the rounding of binary64 and
    the sign of zero are not modelled.  The three settings are finite
    numbers.  [Math.sqrt] on a non-negative rational is a variable of the
    development ([sqrtQ]).

    The outside world.  Everything [run] does not own (the clock, the
    caller's functions and their heap, the timers that fire while [run] is
    suspended) is a state of type [E]; a caller's function is a transition of
    [E] that also tells whether [abort()] was called while it ran and whether
    it returned or threw.  The caller's code calls no other method of the
    benchmark while [run] is in progress.

    One invocation of [run] is modelled.  During it, [p.aborted] is the field
    [w_aborted] of the state; a ghost trace records what happens, in order.
    The [while] loop of a window is bounded by a number of calls ([fuel]): a
    window that is not closed within the bound leaves the run [Stuck]. *)

From Stdlib Require Import ZArith QArith Qcanon Qround List String Bool Lia Lqa.
Import ListNotations.

Set Warnings "-register-all".

Open Scope string_scope.
Open Scope list_scope.
Open Scope Z_scope.

(** ** Numbers *)

Inductive number : Type :=
| Fin (q : Qc)
| PosInf
| NegInf
| NaN.

Definition Qz (z : Z) : Qc := Q2Qc (inject_Z z).

Definition of_Z (z : Z) : number := Fin (Qz z).
Definition of_nat (n : nat) : number := of_Z (Z.of_nat n).

Definition Qc_leb (a b : Qc) : bool := Qle_bool a b.
Definition Qc_ltb (a b : Qc) : bool := negb (Qle_bool b a).
Definition Qc_is0 (a : Qc) : bool := Qc_eq_bool a (Qz 0).

(** [a + b] *)
Definition num_add (a b : number) : number :=
  match a, b with
  | NaN, _ | _, NaN => NaN
  | PosInf, NegInf | NegInf, PosInf => NaN
  | PosInf, _ | _, PosInf => PosInf
  | NegInf, _ | _, NegInf => NegInf
  | Fin x, Fin y => Fin (x + y)%Qc
  end.

Definition num_neg (a : number) : number :=
  match a with
  | Fin x => Fin (- x)%Qc
  | PosInf => NegInf
  | NegInf => PosInf
  | NaN => NaN
  end.

(** [a - b] *)
Definition num_sub (a b : number) : number := num_add a (num_neg b).

(** [Infinity * x] when [pos], [-Infinity * x] otherwise: [NaN] when [x] is
    zero, else the infinity of the product's sign. *)
Definition inf_times (pos : bool) (x : Qc) : number :=
  if Qc_is0 x then NaN
  else if Bool.eqb pos (Qc_ltb (Qz 0) x) then PosInf else NegInf.

(** [a * b] *)
Definition num_mul (a b : number) : number :=
  match a, b with
  | NaN, _ | _, NaN => NaN
  | Fin x, Fin y => Fin (x * y)%Qc
  | PosInf, PosInf | NegInf, NegInf => PosInf
  | PosInf, NegInf | NegInf, PosInf => NegInf
  | PosInf, Fin x | Fin x, PosInf => inf_times true x
  | NegInf, Fin x | Fin x, NegInf => inf_times false x
  end.

(** [a / b]; a zero divisor is taken as [+0]. *)
Definition num_div (a b : number) : number :=
  match a, b with
  | NaN, _ | _, NaN => NaN
  | Fin x, Fin y =>
      if Qc_is0 y then inf_times true x else Fin (x / y)%Qc
  | Fin _, (PosInf | NegInf) => of_Z 0
  | (PosInf | NegInf), (PosInf | NegInf) => NaN
  | PosInf, Fin y => if Qc_ltb y (Qz 0) then NegInf else PosInf
  | NegInf, Fin y => if Qc_ltb y (Qz 0) then PosInf else NegInf
  end.

(** [a <= b] and [a < b]; both are false when an operand is [NaN]. *)
Definition num_le (a b : number) : bool :=
  match a, b with
  | NaN, _ | _, NaN => false
  | NegInf, _ | _, PosInf => true
  | PosInf, _ | _, NegInf => false
  | Fin x, Fin y => Qc_leb x y
  end.

Definition num_lt (a b : number) : bool :=
  match a, b with
  | NaN, _ | _, NaN => false
  | PosInf, _ | _, NegInf => false
  | NegInf, _ | _, PosInf => true
  | Fin x, Fin y => Qc_ltb x y
  end.

(** [a >= b] and [a > b] *)
Definition num_ge (a b : number) : bool := num_le b a.
Definition num_gt (a b : number) : bool := num_lt b a.

(** [Math.max(a, b)] *)
Definition Math_max (a b : number) : number :=
  match a, b with
  | NaN, _ | _, NaN => NaN
  | _, _ => if num_le a b then b else a
  end.

(** [Math.pow(x, y)] for a natural exponent [y]. *)
Fixpoint Math_pow (x : number) (y : nat) : number :=
  match y with
  | O => of_Z 1
  | S y' => num_mul x (Math_pow x y')
  end.

(** [Math.sqrt(x)], from the square root [sqrtQ] of a non-negative rational. *)
Definition Math_sqrt (sqrtQ : Qc -> Qc) (x : number) : number :=
  match x with
  | Fin q => if Qc_ltb q (Qz 0) then NaN else Fin (sqrtQ q)
  | PosInf => PosInf
  | NegInf | NaN => NaN
  end.

Definition number_eqb (a b : number) : bool :=
  match a, b with
  | Fin x, Fin y => Qc_eq_bool x y
  | PosInf, PosInf | NegInf, NegInf | NaN, NaN => true
  | _, _ => false
  end.

(** ** Errors *)

Record Error : Type := mkError { err_name : string; err_message : string }.

(** [new Error(message)] *)
Definition new_Error (message : string) : Error :=
  {| err_name := "Error"; err_message := message |}.

(** [abortError], index.js lines 7-11. *)
Definition abortError (message : string) : Error :=
  let err := new_Error message in
  {| err_name := "AbortError"; err_message := err_message err |}.

(** ** Samples and results *)

Record Sample : Type := mkSample { hits : Z; duration : Z }.

Record Totals : Type := mkTotals { runs : nat; avg : number; stdDev : number }.

Record BenchmarkResults : Type := mkResults {
  name : string;
  totals : Totals;
  samples : list Sample;
  warmup : option Sample
}.

(** ** Values, the registry and the configuration *)

Section Runner.

(** The world outside the runner. *)
Variable E : Type.

(** [Date.now()], in milliseconds. *)
Variable Date_now : E -> Z.

(** What the event loop runs while [run] waits for a zero-delay timer: the
    other timers that are due.  The boolean tells whether one of them called
    [abort()]. *)
Variable timers : E -> bool * E.

(** The square root of a non-negative rational. *)
Variable sqrtQ : Qc -> Qc.

(** A JavaScript value.  A function is its body, a transition of the outside
    world that tells whether [abort()] was called while it ran and returns
    ([inl]) or throws ([inr]) a value, and its own properties.  A promise is
    what happens until it settles: fulfilled ([inl]) or rejected ([inr]). *)
Inductive value : Type :=
| VUndefined
| VNull
| VBoolean (b : bool)
| VNumber (n : number)
| VString (s : string)
| VObject (props : list (string * value))
| VFunction (body : E -> bool * (value + value) * E)
            (props : list (string * value))
| VPromise (settle : E -> bool * (value + value) * E).

Definition Body : Type := E -> bool * (value + value) * E.

Definition typeof (v : value) : string :=
  match v with
  | VUndefined => "undefined"
  | VNull => "object"
  | VBoolean _ => "boolean"
  | VNumber _ => "number"
  | VString _ => "string"
  | VObject _ => "object"
  | VFunction _ _ => "function"
  | VPromise _ => "object"
  end.

(** ToBoolean *)
Definition truthy (v : value) : bool :=
  match v with
  | VUndefined | VNull => false
  | VBoolean b => b
  | VNumber (Fin q) => negb (Qc_is0 q)
  | VNumber NaN => false
  | VNumber _ => true
  | VString s => negb (String.eqb s "")
  | VObject _ | VFunction _ _ | VPromise _ => true
  end.

Fixpoint lookup (k : string) (props : list (string * value)) : value :=
  match props with
  | [] => VUndefined
  | (k', v) :: rest => if String.eqb k k' then v else lookup k rest
  end.

(** [v.k]: a [TypeError] on [undefined] and [null]; a primitive and a promise
    have none of the properties read here. *)
Definition get (v : value) (k : string) : Error + value :=
  match v with
  | VUndefined =>
      inl {| err_name := "TypeError";
             err_message := "Cannot read properties of undefined" |}
  | VNull =>
      inl {| err_name := "TypeError";
             err_message := "Cannot read properties of null" |}
  | VObject props | VFunction _ props => inr (lookup k props)
  | _ => inr VUndefined
  end.

Definition is_function (v : value) : bool := String.eqb (typeof v) "function".

(** [isPromise], index.js lines 1-5. *)
Definition isPromise (obj : value) : bool :=
  match obj with
  | VPromise _ => true
  | _ =>
      (match obj with VNull => false | _ => String.eqb (typeof obj) "object" end
       || String.eqb (typeof obj) "function")
      && match get obj "then" with
         | inr t => String.eqb (typeof t) "function"
         | inl _ => false
         end
  end.

(** One entry of [p.units]; [run] attaches [samples] and [warmup] to it.
    [u_warmup] is what an earlier [run] may have left there. *)
Record UnitDescriptor : Type := mkUnit {
  u_name : string;
  u_prepare : value;
  u_unit : value;
  u_teardown : value;
  u_warmup : option Sample
}.

(** [this._p] *)
Record Benchmark : Type := mkBenchmark {
  units : list UnitDescriptor;
  aborted : bool;
  warmupTime : Qc;
  maxUnitTime : Qc;
  runsPerUnit : Qc
}.

(** [constructor], lines 24-32. *)
Definition new_Benchmark : Benchmark :=
  {| units := []; aborted := false;
     warmupTime := Qz 50; maxUnitTime := Qz 5000; runsPerUnit := Qz 10 |}.

(** [add], lines 42-53.  The fields of the pushed object are evaluated in
    order; reading [options.unit] throws when [options] is [undefined] or
    [null]. *)
Definition add (p : Benchmark) (name : string) (options : value)
  : Error + Benchmark :=
  match (if truthy options then get options "prepare" else inr VNull) with
  | inl e => inl e
  | inr prepare =>
    match (if is_function options then inr options else get options "unit") with
    | inl e => inl e
    | inr unit =>
      match (if truthy options then get options "teardown" else inr VNull) with
      | inl e => inl e
      | inr teardown =>
          inr {| units := units p ++
                   [ {| u_name := name; u_prepare := prepare; u_unit := unit;
                        u_teardown := teardown; u_warmup := None |} ];
                 aborted := aborted p;
                 warmupTime := warmupTime p;
                 maxUnitTime := maxUnitTime p;
                 runsPerUnit := runsPerUnit p |}
      end
    end
  end.

(** [abort], lines 61-64.  While [run] is in progress the flag is the field
    [w_aborted] of its state, and a call of [abort()] is told by the function
    of the caller that makes it. *)
Definition abort (p : Benchmark) : Benchmark :=
  {| units := units p; aborted := true; warmupTime := warmupTime p;
     maxUnitTime := maxUnitTime p; runsPerUnit := runsPerUnit p |}.

Definition setWarmupTime (p : Benchmark) (ms : Qc) : Benchmark :=
  {| units := units p; aborted := aborted p; warmupTime := ms;
     maxUnitTime := maxUnitTime p; runsPerUnit := runsPerUnit p |}.

Definition getWarmupTime (p : Benchmark) : Qc := warmupTime p.

Definition setMaxUnitTime (p : Benchmark) (ms : Qc) : Benchmark :=
  {| units := units p; aborted := aborted p; warmupTime := warmupTime p;
     maxUnitTime := ms; runsPerUnit := runsPerUnit p |}.

Definition getMaxUnitTime (p : Benchmark) : Qc := maxUnitTime p.

Definition setRunsPerUnit (p : Benchmark) (n : Qc) : Benchmark :=
  {| units := units p; aborted := aborted p; warmupTime := warmupTime p;
     maxUnitTime := maxUnitTime p; runsPerUnit := n |}.

Definition getRunsPerUnit (p : Benchmark) : Qc := runsPerUnit p.

(** ** The state of one [run] and its effects *)

(** Who is being called. *)
Inductive Callee : Type := Prepare | Unit | Teardown | OnCycle.

(** The three places where [run] throws when [p.aborted] is set: the head of
    the loop over the units (line 146), the head of the loop over the runs
    (line 200) and the check that follows the statistics (line 225). *)
Inductive Checkpoint : Type := AtUnitStart | BetweenRuns | AfterStats.

(** How a [run] can be left by an exception. *)
Inductive Exn : Type :=
| Raised (err : Error)                 (* thrown by [run]'s own code *)
| Propagated (who : Callee) (v : value) (* thrown or rejected by the caller's function *)
| NotCallable (who : Callee).          (* TypeError: the value called is not a function *)

(** What happened, in order (a ghost trace: [run] never reads it). *)
Inductive Event : Type :=
| EvCheck (c : Checkpoint) (flag : bool)  (* [p.aborted] is read at a checkpoint *)
| EvCall (who : Callee)                   (* a caller's function is called *)
| EvAbort                                 (* [abort()] was called *)
| EvSample (s : Sample)                   (* [unit.samples.push] *)
| EvStats (n : nat) (mean dev : number)   (* [runs], [avg] and [stdDev] are computed *)
| EvPush (r : BenchmarkResults)           (* [unitResults.push] *)
| EvOnCycle (r : BenchmarkResults).       (* [onCycle(results)] *)

Record World : Type := mkWorld {
  w_aborted : bool;          (* [p.aborted] *)
  w_env : E;
  w_log : list Event
}.

(** [Stuck]: the bound on the number of calls of one window ran out. *)
Inductive Res (A : Type) : Type :=
| Val (a : A)
| Exc (e : Exn)
| Stuck.
Arguments Val {A} a.
Arguments Exc {A} e.
Arguments Stuck {A}.

Definition M (A : Type) : Type := World -> World * Res A.

Definition ret {A} (a : A) : M A := fun w => (w, Val a).

Definition bind {A B} (m : M A) (f : A -> M B) : M B :=
  fun w =>
    match m w with
    | (w', Val a) => f a w'
    | (w', Exc e) => (w', Exc e)
    | (w', Stuck) => (w', Stuck)
    end.

Notation "x <- m ;; k" := (bind m (fun x => k))
  (at level 61, m at next level, right associativity).
Notation "m ;;; k" := (bind m (fun _ => k))
  (at level 61, right associativity).

Definition throw {A} (e : Exn) : M A := fun w => (w, Exc e).

Definition emit (ev : Event) : M unit :=
  fun w => ({| w_aborted := w_aborted w; w_env := w_env w;
               w_log := w_log w ++ [ev] |}, Val tt).

(** The outside world moves: [ab] tells whether [abort()] was called. *)
Definition world_step (ab : bool) (e' : E) (w : World) : World :=
  {| w_aborted := w_aborted w || ab; w_env := e';
     w_log := w_log w ++ (if ab then [EvAbort] else []) |}.

(** Run a body: the call of a function, or the wait for a promise. *)
Definition perform (who : Callee) (body : Body) : M value :=
  fun w =>
    match body (w_env w) with
    | (ab, inl v, e') => (world_step ab e' w, Val v)
    | (ab, inr v, e') => (world_step ab e' w, Exc (Propagated who v))
    end.

(** [f()] *)
Definition call (who : Callee) (f : value) : M value :=
  match f with
  | VFunction body _ => emit (EvCall who) ;;; perform who body
  | _ => throw (NotCallable who)
  end.

(** [await v]: a promise is waited for; a thenable's [then] is called; any
    other value is passed on. *)
Definition await (who : Callee) (v : value) : M value :=
  match v with
  | VPromise settle => perform who settle
  | VObject props | VFunction _ props =>
      match lookup "then" props with
      | VFunction body _ => perform who body
      | _ => ret v
      end
  | _ => ret v
  end.

(** [if (p.aborted === true) throw abortError('abort() was called')] *)
Definition checkpoint (c : Checkpoint) : M unit :=
  fun w =>
    let w' := {| w_aborted := w_aborted w; w_env := w_env w;
                 w_log := w_log w ++ [EvCheck c (w_aborted w)] |} in
    if w_aborted w then (w', Exc (Raised (abortError "abort() was called")))
    else (w', Val tt).

(** [await new Promise(resolve => setTimeout(..., 0))], up to the moment the
    timer's callback starts. *)
Definition setTimeout0 : M unit :=
  fun w => let (ab, e') := timers (w_env w) in (world_step ab e' w, Val tt).

Definition now : M Z := fun w => (w, Val (Date_now (w_env w))).

(** ** The sampling engine *)

(** [sampleRunTime], line 151. *)
Definition sampleRunTime (p : Benchmark) : number :=
  num_div (Fin (maxUnitTime p)) (Fin (runsPerUnit p)).

(** [hasWarmupRun], line 153. *)
Definition hasWarmupRun (p : Benchmark) : bool :=
  num_gt (Fin (warmupTime p)) (of_Z 0).

(** [actualRunCount], lines 150 and 154. *)
Definition actualRunCount (p : Benchmark) : number :=
  let runsPerUnit := Math_max (Fin (runsPerUnit p)) (of_Z 1) in
  if hasWarmupRun p then num_add runsPerUnit (of_Z 1) else runsPerUnit.

Section Unit.

Variable fuel : nat.
Variable p : Benchmark.
Variable unitFn : value.
Variable fnIsPromise : bool.

(** The [while] loop of [doRun], lines 167-187; [calls] bounds the number of
    calls of the unit function. *)
Fixpoint doRun_loop (calls : nat) (startTime : Z) (endTime : number)
    (hits : Z) (samples : list Sample) : M (list Sample) :=
  fun w =>
    if w_aborted w then (w, Val samples)
    else
      match calls with
      | O => (w, Stuck)
      | S calls' =>
          (res <- call Unit unitFn ;;
           (if fnIsPromise then await Unit res else ret res) ;;;
           let hits := hits + 1 in
           now' <- now ;;
           if num_ge (of_Z now') endTime then
             let s := {| hits := hits; duration := now' - startTime |} in
             emit (EvSample s) ;;; ret (samples ++ [s])
           else doRun_loop calls' startTime endTime hits samples) w
      end.

(** [doRun], lines 162-188. *)
Definition doRun (samples : list Sample) : M (list Sample) :=
  startTime <- now ;;
  let endTime := num_add (of_Z startTime) (sampleRunTime p) in
  doRun_loop fuel startTime endTime 0 samples.

(** The loop over the runs, lines 197-208: [bound] is an upper bound of the
    number of its iterations. *)
Fixpoint for_runs (bound : nat) (run : Z) (samples : list Sample)
  : M (list Sample) :=
  if num_lt (of_Z run) (actualRunCount p) then
    match bound with
    | O => fun w => (w, Stuck)
    | S bound' =>
        checkpoint BetweenRuns ;;;
        setTimeout0 ;;;
        samples' <- doRun samples ;;
        for_runs bound' (run + 1) samples'
    end
  else ret samples.

End Unit.

(** The number of integers [run >= 0] with [run < n]. *)
Definition run_bound (n : number) : nat :=
  match n with
  | Fin q => Z.to_nat (Qceiling q)
  | _ => O
  end.

(** ** The aggregation, lines 217-223 and 228-242 *)

(** [samples.reduce((s, v) => s + v.hits, 0) / runs] *)
Definition mean_hits (samples : list Sample) : number :=
  num_div
    (fold_left (fun s v => num_add s (of_Z (hits v))) samples (of_Z 0))
    (of_nat (List.length samples)).

(** [Math.sqrt(samples.map(v => Math.pow(v.hits - avg, 2))
                      .reduce((s, v) => s + v, 0) / runs)] *)
Definition dev_hits (samples : list Sample) (avg : number) : number :=
  Math_sqrt sqrtQ
    (num_div
      (fold_left (fun s v => num_add s v)
         (map (fun v => Math_pow (num_sub (of_Z (hits v)) avg) 2) samples)
         (of_Z 0))
      (of_nat (List.length samples))).

(** [toPerSec], lines 228-230. *)
Definition toPerSec (sampleRunTime : number) (count : number) : number :=
  num_mul count (num_div (of_Z 1000) sampleRunTime).

(** [samples.shift()] when a warmup run was made and a sample exists,
    lines 213-215: the warmup sample and the samples that stay. *)
Definition shift_warmup (hasWarmupRun : bool) (old : option Sample)
    (samples : list Sample) : option Sample * list Sample :=
  match samples with
  | s :: rest => if hasWarmupRun then (Some s, rest) else (old, samples)
  | [] => (old, samples)
  end.

(** ** [run], lines 137-254 *)

Definition OnCycleFn : Type := BenchmarkResults -> Body.

(** The body of the loop over the units, lines 146-250, for one unit: the
    check of the flag (line 146), then two parts.  First part, lines 149-211:
    [prepare], the probing call of the unit function, the runs and
    [teardown]; its value is [unit.samples]. *)
Definition sample_unit (fuel : nat) (p : Benchmark) (unit : UnitDescriptor)
  : M (list Sample) :=
  let actualRunCount := actualRunCount p in
  let unitPrepareFn := u_prepare unit in
  let unitFn := u_unit unit in
  let unitTeardownFn := u_teardown unit in
  (if is_function unitPrepareFn
   then r <- call Prepare unitPrepareFn ;; await Prepare r
   else ret VUndefined) ;;;
  probe <- call Unit unitFn ;;
  let fnIsPromise := isPromise probe in
  samples <- for_runs fuel p unitFn fnIsPromise
               (run_bound actualRunCount) 0 [] ;;
  (if is_function unitTeardownFn
   then r <- call Teardown unitTeardownFn ;; await Teardown r
   else ret VUndefined) ;;;
  ret samples.

(** The object built at lines 234-246. *)
Definition make_results (p : Benchmark) (unit : UnitDescriptor)
    (warmup : option Sample) (samples : list Sample) : BenchmarkResults :=
  let sampleRunTime := sampleRunTime p in
  let runs := List.length samples in
  let avg := mean_hits samples in
  let stdDev := dev_hits samples avg in
  {| name := u_name unit;
     totals := {| runs := runs;
                  avg := toPerSec sampleRunTime avg;
                  stdDev := toPerSec sampleRunTime stdDev |};
     samples := samples;
     warmup := warmup |}.

(** Second part, lines 213-250: the warmup sample is taken off, the
    statistics are computed, the flag is checked, the results are built,
    pushed and handed to [onCycle]. *)
Definition report_unit (p : Benchmark) (onCycle : option OnCycleFn)
    (unit : UnitDescriptor) (unitResults : list BenchmarkResults)
    (samples : list Sample) : M (list BenchmarkResults) :=
  let '(warmup, samples) :=
    shift_warmup (hasWarmupRun p) (u_warmup unit) samples in
  let runs := List.length samples in
  let avg := mean_hits samples in
  let stdDev := dev_hits samples avg in
  emit (EvStats runs avg stdDev) ;;;
  checkpoint AfterStats ;;;
  let results := make_results p unit warmup samples in
  emit (EvPush results) ;;;
  let unitResults := unitResults ++ [results] in
  match onCycle with
  | Some f => emit (EvOnCycle results) ;;; perform OnCycle (f results) ;;;
              ret unitResults
  | None => ret unitResults
  end.

Definition run_unit (fuel : nat) (p : Benchmark) (onCycle : option OnCycleFn)
    (unit : UnitDescriptor) (unitResults : list BenchmarkResults)
  : M (list BenchmarkResults) :=
  checkpoint AtUnitStart ;;;
  samples <- sample_unit fuel p unit ;;
  report_unit p onCycle unit unitResults samples.

(** The loop over [p.units], lines 145-251. *)
Fixpoint run_units (fuel : nat) (p : Benchmark) (onCycle : option OnCycleFn)
    (us : list UnitDescriptor) (unitResults : list BenchmarkResults)
  : M (list BenchmarkResults) :=
  match us with
  | [] => ret unitResults
  | unit :: rest =>
      unitResults' <- run_unit fuel p onCycle unit unitResults ;;
      run_units fuel p onCycle rest unitResults'
  end.

(** [run(options)] in the outside world [e]: the flag is reset, the units are
    run in order.  The result is a value when the promise is fulfilled and an
    exception when it is rejected. *)
Definition run (fuel : nat) (p : Benchmark) (onCycle : option OnCycleFn)
    (e : E) : World * Res (list BenchmarkResults) :=
  run_units fuel p onCycle (units p) []
    {| w_aborted := false; w_env := e; w_log := [] |}.

End Runner.

Arguments VUndefined {E}.
Arguments VNull {E}.
Arguments VBoolean {E} b.
Arguments VNumber {E} n.
Arguments VString {E} s.
Arguments VObject {E} props.
Arguments VFunction {E} body props.
Arguments VPromise {E} settle.
Arguments Raised {E} err.
Arguments Propagated {E} who v.
Arguments NotCallable {E} who.
Arguments Val {E A} a.
Arguments Exc {E A} e.
Arguments Stuck {E A}.

Arguments typeof {E} v.
Arguments truthy {E} v.
Arguments lookup {E} k props.
Arguments get {E} v k.
Arguments is_function {E} v.
Arguments isPromise {E} obj.
Arguments add {E} p name options.
Arguments abort {E} p.
Arguments setWarmupTime {E} p ms.
Arguments getWarmupTime {E} p.
Arguments setMaxUnitTime {E} p ms.
Arguments getMaxUnitTime {E} p.
Arguments setRunsPerUnit {E} p n.
Arguments getRunsPerUnit {E} p.
Arguments u_name {E} u.
Arguments u_prepare {E} u.
Arguments u_unit {E} u.
Arguments u_teardown {E} u.
Arguments u_warmup {E} u.
Arguments units {E} b.
Arguments aborted {E} b.
Arguments warmupTime {E} b.
Arguments maxUnitTime {E} b.
Arguments runsPerUnit {E} b.
Arguments w_aborted {E} w.
Arguments w_env {E} w.
Arguments w_log {E} w.
Arguments ret {E A} a w.
Arguments bind {E A B} m f w.
Arguments throw {E A} e w.
Arguments emit {E} ev w.
Arguments world_step {E} ab e' w.
Arguments perform {E} who body w.
Arguments call {E} who f.
Arguments await {E} who v.
Arguments checkpoint {E} c w.
Arguments setTimeout0 {E} timers w.
Arguments now {E} Date_now w.
Arguments sampleRunTime {E} p.
Arguments hasWarmupRun {E} p.
Arguments actualRunCount {E} p.
Arguments doRun_loop {E} Date_now unitFn fnIsPromise calls startTime endTime hits samples.
Arguments doRun {E} Date_now fuel p unitFn fnIsPromise samples.
Arguments for_runs {E} Date_now timers fuel p unitFn fnIsPromise bound run samples.
Arguments sample_unit {E} Date_now timers fuel p unit.
Arguments make_results {E} sqrtQ p unit warmup samples.
Arguments report_unit {E} sqrtQ p onCycle unit unitResults samples.
Arguments run_unit {E} Date_now timers sqrtQ fuel p onCycle unit unitResults.
Arguments run_units {E} Date_now timers sqrtQ fuel p onCycle us unitResults.
Arguments run {E} Date_now timers sqrtQ fuel p onCycle e.

(** ** Reading the trace *)

Definition is_abort (ev : Event) : bool :=
  match ev with EvAbort => true | _ => false end.

(** A checkpoint that found the flag set. *)
Definition is_alarm (ev : Event) : bool :=
  match ev with EvCheck _ true => true | _ => false end.

(** A result is appended or handed to [onCycle]. *)
Definition is_report (ev : Event) : bool :=
  match ev with EvPush _ | EvOnCycle _ => true | _ => false end.

(** The samples recorded, in order. *)
Fixpoint recorded (l : list Event) : list Sample :=
  match l with
  | [] => []
  | EvSample s :: l' => s :: recorded l'
  | _ :: l' => recorded l'
  end.

(** The results appended to [unitResults], in order. *)
Fixpoint pushed (l : list Event) : list BenchmarkResults :=
  match l with
  | [] => []
  | EvPush r :: l' => r :: pushed l'
  | _ :: l' => pushed l'
  end.

(** The arguments of the calls of [onCycle], in order. *)
Fixpoint cycled (l : list Event) : list BenchmarkResults :=
  match l with
  | [] => []
  | EvOnCycle r :: l' => r :: cycled l'
  | _ :: l' => cycled l'
  end.

(** Once [abort()] was called, nothing is appended or reported. *)
Fixpoint quiet (l : list Event) : bool :=
  match l with
  | [] => true
  | EvAbort :: l' => negb (existsb is_report l')
  | _ :: l' => quiet l'
  end.

(** Each computation of the statistics is directly followed by the check of
    the flag at line 225. *)
Fixpoint stats_checked (l : list Event) : bool :=
  match l with
  | [] => true
  | EvStats _ _ _ :: l' =>
      match l' with
      | EvCheck AfterStats _ :: _ => stats_checked l'
      | _ => false
      end
  | _ :: l' => stats_checked l'
  end.

(** The statistics of the unit at hand have been computed: [d] before [l],
    the result after it.  A unit starts with the check of line 146. *)
Fixpoint stats_done (d : bool) (l : list Event) : bool :=
  match l with
  | [] => d
  | EvStats _ _ _ :: l' => stats_done true l'
  | EvCheck AtUnitStart _ :: l' => stats_done false l'
  | _ :: l' => stats_done d l'
  end.

(** Every call of [prepare], of the unit function and of [teardown] comes
    before the statistics of its unit are computed. *)
Fixpoint calls_before_stats (d : bool) (l : list Event) : bool :=
  match l with
  | [] => true
  | EvStats _ _ _ :: l' => calls_before_stats true l'
  | EvCheck AtUnitStart _ :: l' => calls_before_stats false l'
  | EvCall _ :: l' => negb d && calls_before_stats d l'
  | _ :: l' => calls_before_stats d l'
  end.

(** The samples of a result with its warmup sample in front. *)
Definition with_warmup (r : BenchmarkResults) : list Sample :=
  match warmup r with
  | Some s => s :: samples r
  | None => samples r
  end.

(** The larger of two rationals. *)
Definition Qc_max (a b : Qc) : Qc := if Qc_leb a b then b else a.

(** The number of runs after the clamp of line 150: the least integer that
    is not below [max(r, 1)]. *)
Definition clamped_runs (r : Qc) : nat :=
  Z.to_nat (Qceiling (Qc_max r (Qz 1))).

(** ** Summaries of effects

    What a computation of the sampling part does to the state, as the list
    [ext] of the events it appends. *)

Definition good_sample {E} (p : Benchmark E) (s : Sample) : Prop :=
  1 <= hits s /\ num_ge (of_Z (duration s)) (sampleRunTime p) = true.

(** The events of the sampling part. *)
Definition sampling_event {E} (p : Benchmark E) (ev : Event) : Prop :=
  match ev with
  | EvSample s => good_sample p s
  | EvCall who => who <> OnCycle
  | EvAbort => True
  | EvCheck c _ => c = BetweenRuns
  | _ => False
  end.

(** The log grows by [ext]; the flag is set when [abort()] was called. *)
Definition effect {E} (w w' : World E) (ext : list Event) : Prop :=
  w_log w' = w_log w ++ ext /\
  w_aborted w' = w_aborted w || existsb is_abort ext.

(** How the computation ended: only a checkpoint that finds the flag set
    raises, and it raises the abort error; only the unit function can fail to
    be callable; the bound on the calls runs out only while the flag is
    unset. *)
Definition outcome_ok {E A} (r : Res E A) (w' : World E) (ext : list Event)
  : Prop :=
  match r with
  | Val _ => existsb is_alarm ext = false
  | Stuck => existsb is_alarm ext = false /\ w_aborted w' = false
  | Exc (Raised err) =>
      err = abortError "abort() was called" /\
      exists c ext0, ext = ext0 ++ [EvCheck c true] /\
                     existsb is_alarm ext0 = false
  | Exc (NotCallable who) => who = Unit /\ existsb is_alarm ext = false
  | Exc (Propagated _ _) => existsb is_alarm ext = false
  end.

Definition spec_at {E A} (p : Benchmark E) (w : World E) (m : M E A)
    (V : A -> list Event -> World E -> Prop) : Prop :=
  exists ext,
    effect w (fst (m w)) ext /\
    Forall (sampling_event p) ext /\
    outcome_ok (snd (m w)) (fst (m w)) ext /\
    forall a, snd (m w) = Val a -> V a ext (fst (m w)).

(** A value that ignores what was recorded: nothing was. *)
Definition silent {E A} : A -> list Event -> World E -> Prop :=
  fun _ ext _ => recorded ext = [].

(** What a loop that collects samples returns: the samples it had, followed
    by those it recorded, [n] of them when the flag is still unset. *)
Definition collects {E} (samples : list Sample) (n : nat)
  : list Sample -> list Event -> World E -> Prop :=
  fun samples' ext w' =>
    samples' = samples ++ recorded ext /\
    (w_aborted w' = false -> List.length (recorded ext) = n).

(** The value of the sampling part of one unit: the samples recorded. *)
Definition sampled {E} (p : Benchmark E)
  : list Sample -> list Event -> World E -> Prop :=
  fun samples ext w' =>
    samples = recorded ext /\
    (w_aborted w' = false ->
     List.length samples = run_bound (actualRunCount p)).

(** [abort()] was called at most once, and then it is the last event. *)
Fixpoint abort_last (l : list Event) : bool :=
  match l with
  | [] => true
  | EvAbort :: l' => match l' with [] => true | _ => false end
  | _ :: l' => abort_last l'
  end.

(** The totals of lines 236-240 for the samples [ss]. *)
Definition totals_of (sqrtQ : Qc -> Qc) (sampleRunTime : number)
    (ss : list Sample) : Totals :=
  {| runs := List.length ss;
     avg := toPerSec sampleRunTime (mean_hits ss);
     stdDev := toPerSec sampleRunTime (dev_hits sqrtQ ss (mean_hits ss)) |}.

(** The events of a whole run. *)
Definition run_event {E} (sqrtQ : Qc -> Qc) (p : Benchmark E) (ev : Event)
  : Prop :=
  match ev with
  | EvSample s => good_sample p s
  | EvStats n a d =>
      exists ss, n = List.length ss /\ a = mean_hits ss /\
                 d = dev_hits sqrtQ ss a
  | EvPush r =>
      totals r = totals_of sqrtQ (sampleRunTime p) (samples r) /\
      List.length (samples r) = clamped_runs (runsPerUnit p) /\
      (hasWarmupRun p = true -> warmup r <> None)
  | _ => True
  end.

(** What holds of the state of a run at every moment it can be left. *)
Definition trace_ok {E} (sqrtQ : Qc -> Qc) (p : Benchmark E) (w : World E)
  : Prop :=
  w_aborted w = existsb is_abort (w_log w) /\
  Forall (run_event sqrtQ p) (w_log w) /\
  quiet (w_log w) = true /\
  stats_checked (w_log w) = true /\
  calls_before_stats false (w_log w) = true.

(** The samples recorded for a result. *)
Definition all_recorded {E} (p : Benchmark E) (r : BenchmarkResults)
  : list Sample :=
  if hasWarmupRun p then with_warmup r else samples r.

(** What holds between the loops over the units: [rs] is [unitResults]. *)
Definition results_ok {E} (p : Benchmark E) (onCycle : option (OnCycleFn E))
    (w : World E) (rs : list BenchmarkResults) : Prop :=
  pushed (w_log w) = rs /\
  cycled (w_log w) = match onCycle with Some _ => rs | None => [] end /\
  recorded (w_log w) = flat_map (all_recorded p) rs /\
  Forall (fun r =>
            List.length (samples r) = clamped_runs (runsPerUnit p) /\
            (hasWarmupRun p = true -> warmup r <> None)) rs /\
  abort_last (w_log w) = true.

(** What holds when a part of [run] is left, in any way. *)
Definition left_ok {E} (sqrtQ : Qc -> Qc) (p : Benchmark E)
    (onCycle : option (OnCycleFn E))
    (o : World E * Res E (list BenchmarkResults)) : Prop :=
  trace_ok sqrtQ p (fst o) /\
  outcome_ok (snd o) (fst o) (w_log (fst o)) /\
  forall rs, snd o = Val rs -> results_ok p onCycle (fst o) rs.

(** ** The statistics as the specification words them *)

Definition sum_hits (ss : list Sample) : Z :=
  fold_right (fun s acc => hits s + acc) 0 ss.

(** The arithmetic mean of the hits. *)
Definition mean (ss : list Sample) : Qc :=
  (Qz (sum_hits ss) / Qz (Z.of_nat (List.length ss)))%Qc.

(** The sum of the squared deviations from [m]. *)
Definition sum_sq_dev (m : Qc) (ss : list Sample) : Qc :=
  fold_right (fun s acc => ((Qz (hits s) - m) * (Qz (hits s) - m) + acc)%Qc)
    (Qz 0) ss.

(** The population variance: the divisor is the number of samples. *)
Definition population_variance (ss : list Sample) : Qc :=
  (sum_sq_dev (mean ss) ss / Qz (Z.of_nat (List.length ss)))%Qc.

Definition population_stddev (sqrtQ : Qc -> Qc) (ss : list Sample) : Qc :=
  sqrtQ (population_variance ss).

(** [x * (1000 / sampleRunTime)] *)
Definition rate (sampleRunTime : number) (x : Qc) : number :=
  num_mul (Fin x) (num_div (of_Z 1000) sampleRunTime).

(** ** A simulated outside world

    A clock, and at most one pending timer that calls [abort()] when it is
    due.  Used by the examples only. *)

Record Sim : Type := mkSim { clock : Z; abort_at : option Z }.

(** The timers that are due fire. *)
Definition sim_timers (e : Sim) : bool * Sim :=
  match abort_at e with
  | Some t => if t <=? clock e
              then (true, {| clock := clock e; abort_at := None |})
              else (false, e)
  | None => (false, e)
  end.

(** A synchronous function that takes [ms] milliseconds. *)
Definition busy (ms : Z) : value Sim :=
  VFunction
    (fun e => (false, inl VUndefined,
               {| clock := clock e + ms; abort_at := abort_at e |})) [].

(** An asynchronous function: it returns at once a promise that settles
    [ms] milliseconds later; the timers due by then have fired. *)
Definition sleeper (ms : Z) : value Sim :=
  VFunction
    (fun e => (false,
               inl (VPromise (fun e =>
                      let '(ab, e') :=
                        sim_timers {| clock := clock e + ms;
                                      abort_at := abort_at e |} in
                      (ab, inl VUndefined, e'))),
               e)) [].

(** A function that throws [v]. *)
Definition thrower (v : value Sim) : value Sim :=
  VFunction (fun e => (false, inr v, e)) [].

(** A square root that is exact on the squares of rationals. *)
Definition sim_sqrt (q : Qc) : Qc :=
  Q2Qc (Z.sqrt (Qnum q) # Pos.sqrt (Qden q)).

Definition sim_run := run clock sim_timers sim_sqrt.

Definition sim_add (p : Benchmark Sim) (name : string) (options : value Sim)
  : Benchmark Sim :=
  match add p name options with
  | inr p' => p'
  | inl _ => p
  end.

(** A benchmark with the given [warmupTime], [maxUnitTime] and [runsPerUnit]
    and the given units, registered in order. *)
Definition bench (warmup maxTime runs : Z) (us : list (string * value Sim))
  : Benchmark Sim :=
  fold_left (fun p nu => sim_add p (fst nu) (snd nu)) us
    (setRunsPerUnit
       (setMaxUnitTime (setWarmupTime (new_Benchmark Sim) (Qz warmup))
          (Qz maxTime))
       (Qz runs)).

(** The clock reads 1000; no timer is pending. *)
Definition at_1000 : Sim := {| clock := 1000; abort_at := None |}.

(** The clock reads 1000; a timer will call [abort()] at [t]. *)
Definition abort_due (t : Z) : Sim := {| clock := 1000; abort_at := Some t |}.

(** One unit that takes 4 ms a call; two runs of 10 ms after a warmup run. *)
Definition demo : Benchmark Sim := bench 10 20 2 [("a", busy 4)].

(** An [onCycle] callback that throws. *)
Definition failing_onCycle : OnCycleFn Sim :=
  fun _ e => (false, inr (VString "boom"), e).

(** An [onCycle] callback that only returns. *)
Definition quiet_onCycle : OnCycleFn Sim :=
  fun _ e => (false, inl VUndefined, e).

(** A function that carries a [prepare] property of its own. *)
Definition tagged : value Sim :=
  VFunction (fun e => (false, inl VUndefined, e)) [("prepare", busy 1)].

(** What a run was fulfilled with (nothing when it was not). *)
Definition fulfilled {E} (o : World E * Res E (list BenchmarkResults))
  : list BenchmarkResults :=
  match snd o with
  | Val rs => rs
  | _ => []
  end.

Definition no_result : BenchmarkResults :=
  {| name := "";
     totals := {| runs := 0; avg := NaN; stdDev := NaN |};
     samples := [];
     warmup := None |}.

(** ** Chains of calls of the registration and configuration methods

    [add], [abort] and the setters return [this]: a caller chains them.  A
    chain stops at the first call that throws. *)

Inductive Op (E : Type) : Type :=
| OpAdd (name : string) (options : value E)
| OpAbort
| OpSetWarmupTime (ms : Qc)
| OpSetMaxUnitTime (ms : Qc)
| OpSetRunsPerUnit (n : Qc).
Arguments OpAdd {E} name options.
Arguments OpAbort {E}.
Arguments OpSetWarmupTime {E} ms.
Arguments OpSetMaxUnitTime {E} ms.
Arguments OpSetRunsPerUnit {E} n.

Definition apply_op {E} (p : Benchmark E) (op : Op E) : Error + Benchmark E :=
  match op with
  | OpAdd name options => add p name options
  | OpAbort => inr (abort p)
  | OpSetWarmupTime ms => inr (setWarmupTime p ms)
  | OpSetMaxUnitTime ms => inr (setMaxUnitTime p ms)
  | OpSetRunsPerUnit n => inr (setRunsPerUnit p n)
  end.

Fixpoint chain {E} (p : Benchmark E) (ops : list (Op E))
  : Error + Benchmark E :=
  match ops with
  | [] => inr p
  | op :: rest =>
      match apply_op p op with
      | inl err => inl err
      | inr p' => chain p' rest
      end
  end.

(** The value a setter was last called with in [ops], [d] when it was not
    called; [pick] tells the calls of that setter. *)
Fixpoint last_set {E} (pick : Op E -> option Qc) (d : Qc) (ops : list (Op E))
  : Qc :=
  match ops with
  | [] => d
  | op :: rest =>
      last_set pick (match pick op with Some v => v | None => d end) rest
  end.

Definition picks_warmupTime {E} (op : Op E) : option Qc :=
  match op with OpSetWarmupTime ms => Some ms | _ => None end.

Definition picks_maxUnitTime {E} (op : Op E) : option Qc :=
  match op with OpSetMaxUnitTime ms => Some ms | _ => None end.

Definition picks_runsPerUnit {E} (op : Op E) : option Qc :=
  match op with OpSetRunsPerUnit n => Some n | _ => None end.

Definition is_OpAbort {E} (op : Op E) : bool :=
  match op with OpAbort => true | _ => false end.

(** The names given to [add] in [ops], in order. *)
Fixpoint added_names {E} (ops : list (Op E)) : list string :=
  match ops with
  | [] => []
  | OpAdd name _ :: rest => name :: added_names rest
  | _ :: rest => added_names rest
  end.

(** ** One call of the unit function, and what is assumed of it *)

(** [let res = unitFn(); if (fnIsPromise) await res;], lines 168-172. *)
Definition call_unit {E} (unitFn : value E) (fnIsPromise : bool)
  : M E (value E) :=
  bind (call Unit unitFn)
       (fun res => if fnIsPromise then await Unit res else ret res).

(** Every call of the unit function that completes takes at least [T]
    milliseconds. *)
Definition takes {E} (Date_now : E -> Z) (T : Z) (unitFn : value E)
    (fnIsPromise : bool) : Prop :=
  forall w w' r,
    call_unit unitFn fnIsPromise w = (w', Val r) ->
    Date_now (w_env w) + T <= Date_now (w_env w').

(** Every call of the unit function completes, calls no [abort()] and takes
    at least [T] milliseconds. *)
Definition steady {E} (Date_now : E -> Z) (T : Z) (unitFn : value E)
    (fnIsPromise : bool) : Prop :=
  forall w,
    w_aborted w = false ->
    exists w' r,
      call_unit unitFn fnIsPromise w = (w', Val r) /\
      w_aborted w' = false /\
      Date_now (w_env w) + T <= Date_now (w_env w').

(** ** The calls and the samples of a run, in order *)

Definition is_milestone (ev : Event) : bool :=
  match ev with
  | EvCall _ | EvSample _ => true
  | _ => false
  end.

Definition milestones (l : list Event) : list Event := filter is_milestone l.

(** [EvCall who] when [f] is a function, nothing otherwise. *)
Definition call_if_function {E} (who : Callee) (f : value E) : list Event :=
  if is_function f then [EvCall who] else [].

(** The calls of the unit function in the window of the sample [s], then the
    sample. *)
Definition window_events (s : Sample) : list Event :=
  repeat (EvCall Unit) (Z.to_nat (hits s)) ++ [EvSample s].

(** The calls and samples of one unit that is run to its end and leaves the
    samples [ss]: [prepare] when it is a function, then the probing call of
    the unit function, then the windows, then [teardown] when it is a
    function. *)
Definition unit_events {E} (u : UnitDescriptor E) (ss : list Sample)
  : list Event :=
  call_if_function Prepare (u_prepare u) ++
  EvCall Unit :: flat_map window_events ss ++
  call_if_function Teardown (u_teardown u).

(** The calls and samples of the units [us] that gave the results [rs]. *)
Definition units_events {E} (p : Benchmark E) (us : list (UnitDescriptor E))
    (rs : list BenchmarkResults) : list Event :=
  flat_map (fun ur => unit_events (fst ur) (all_recorded p (snd ur)))
           (combine us rs).

(** A computation that ends with a value while the flag is unset began with
    the flag unset, and [P] holds of its value and of the calls and samples
    it appended. *)
Definition yields {E A} (m : M E A) (P : A -> list Event -> Prop) : Prop :=
  forall w w' a,
    m w = (w', Val a) ->
    w_aborted w' = false ->
    w_aborted w = false /\
    exists ext, w_log w' = w_log w ++ ext /\ P a (milestones ext).

(** A computation that appends no call and no sample. *)
Definition mute {A} : A -> list Event -> Prop := fun _ ms => ms = [].

(** ** Runs in which nothing goes wrong *)

(** A computation that, begun with the flag unset, ends with a value of
    which [P] holds and leaves the flag unset. *)
Definition proceeds {E A} (m : M E A) (P : A -> Prop) : Prop :=
  forall w,
    w_aborted w = false ->
    exists w' a, m w = (w', Val a) /\ w_aborted w' = false /\ P a.

(** [await f()] ends with a value, and [abort()] is not called. *)
Definition settles {E} (who : Callee) (f : value E) : Prop :=
  proceeds (bind (call who f) (fun r => await who r)) (fun _ => True).

(** A unit function that is always of the same kind, returning promises or
    returning other values, and whose calls take at least [T]
    milliseconds. *)
Definition regular {E} (Date_now : E -> Z) (T : Z) (f : value E) : Prop :=
  exists b,
    proceeds (call Unit f) (fun r => isPromise r = b) /\
    steady Date_now T f b.

(** A unit whose functions behave: [prepare] and [teardown] settle when they
    are functions, and the unit function is regular. *)
Definition behaves {E} (Date_now : E -> Z) (T : Z) (u : UnitDescriptor E)
  : Prop :=
  (is_function (u_prepare u) = true -> settles Prepare (u_prepare u)) /\
  regular Date_now T (u_unit u) /\
  (is_function (u_teardown u) = true -> settles Teardown (u_teardown u)).

(** An [onCycle] callback that returns and does not call [abort()]. *)
Definition returns {E} (onCycle : option (OnCycleFn E)) : Prop :=
  match onCycle with
  | Some f => forall r e, exists v e', f r e = (false, inl v, e')
  | None => True
  end.

(** No timer that is due calls [abort()]. *)
Definition no_timers (e : Sim) : bool * Sim := (false, e).

(** ** What follows a call of [abort()] *)

(** The calls told by [pc], and the samples when [ps] is set. *)
Definition picks (pc : Callee -> bool) (ps : bool) (ev : Event) : bool :=
  match ev with
  | EvCall who => pc who
  | EvSample _ => ps
  | _ => false
  end.

(** The number of the events of [l] told by [pick] that happen while the
    flag is set; [flag] is the flag at the start of [l]. *)
Fixpoint late_count (pick : Event -> bool) (flag : bool) (l : list Event)
  : nat :=
  match l with
  | [] => O
  | ev :: l' =>
      ((if flag && pick ev then 1 else 0) +
       late_count pick (flag || is_abort ev) l')%nat
  end.

Definition count_of (b : bool) : nat := if b then 1%nat else O.

(** A computation that appends at most [bU] events told by [pick] while the
    flag is set when it begins with the flag unset, and at most [bA] when it
    begins with the flag set; begun with the flag set it ends with no value
    when [stops]. *)
Definition late_at {E A} (pick : Event -> bool) (m : M E A) (bU bA : nat)
    (stops : bool) : Prop :=
  forall w,
    exists ext,
      effect w (fst (m w)) ext /\
      (late_count pick (w_aborted w) ext <=
         if w_aborted w then bA else bU)%nat /\
      (stops = true -> w_aborted w = true -> forall a, snd (m w) <> Val a).

Definition is_call (ev : Event) : bool := picks (fun _ => true) false ev.

Definition is_sample (ev : Event) : bool := picks (fun _ => false) true ev.

Definition is_prepare_call (ev : Event) : bool :=
  picks (fun who => match who with Prepare => true | _ => false end) false ev.

(** A call of the unit function, or a sample. *)
Definition is_unit_call_or_sample (ev : Event) : bool :=
  picks (fun who => match who with Unit => true | _ => false end) true ev.

(** A call of the unit function, or a call of [teardown]. *)
Definition is_unit_or_teardown_call (ev : Event) : bool :=
  picks (fun who => match who with Unit | Teardown => true | _ => false end)
        false ev.

(** ** Facts about numbers *)

Lemma Qz_this (z : Z) : (this (Qz z) == inject_Z z)%Q.
Proof. unfold Qz. change (this (Q2Qc (inject_Z z))) with (Qred (inject_Z z)). apply Qred_correct. Qed.

Lemma Qc_leb_iff (a b : Qc) : Qc_leb a b = true <-> (a <= b)%Q.
Proof. unfold Qc_leb. apply Qle_bool_iff. Qed.

Lemma Qc_ltb_iff (a b : Qc) : Qc_ltb a b = true <-> (a < b)%Q.
Proof.
  unfold Qc_ltb. rewrite negb_true_iff.
  split; intro H.
  - apply Qnot_le_lt. intro H'. apply Qle_bool_iff in H'. congruence.
  - destruct (Qle_bool b a) eqn:Hb; [|reflexivity].
    apply Qle_bool_iff in Hb. exfalso. revert Hb. apply Qlt_not_le. exact H.
Qed.

Lemma Qc_ltb_false_iff (a b : Qc) : Qc_ltb a b = false <-> (b <= a)%Q.
Proof.
  unfold Qc_ltb. rewrite negb_false_iff. apply Qle_bool_iff.
Qed.

Lemma Qc_plus_this (a b : Qc) : (this (a + b)%Qc == this a + this b)%Q.
Proof. change (this (a + b)%Qc) with (Qred (this a + this b)). apply Qred_correct. Qed.

(** A window that is closed lasted at least its nominal duration. *)
Lemma closed_window_duration (startTime now' : Z) (srt : number) :
  num_ge (of_Z now') (num_add (of_Z startTime) srt) = true ->
  num_ge (of_Z (now' - startTime)) srt = true.
Proof.
  unfold num_ge. destruct srt as [q| | |]; simpl; try discriminate; auto.
  rewrite !Qc_leb_iff. intro H.
  rewrite Qc_plus_this in H. rewrite !Qz_this in *.
  unfold Z.sub. rewrite inject_Z_plus, inject_Z_opp. lra.
Qed.

(** An integer is below [q] exactly when it is below the ceiling of [q]. *)
Lemma lt_ceiling (z : Z) (q : Qc) :
  Qc_ltb (Qz z) q = true <-> z < Qceiling q.
Proof.
  rewrite Qc_ltb_iff, Qz_this. split; intro H.
  - rewrite Zlt_Qlt. eapply Qlt_le_trans; [exact H | apply Qle_ceiling].
  - assert (Hz : z <= Qceiling q - 1) by lia.
    rewrite Zle_Qle in Hz.
    eapply Qle_lt_trans; [exact Hz | apply Qceiling_lt].
Qed.

Lemma Qceiling_succ (q : Q) : Qceiling (q + 1) = Qceiling q + 1.
Proof.
  assert (H1 := Qle_ceiling q). assert (H2 := Qceiling_lt q).
  assert (H3 := Qle_ceiling (q + 1)). assert (H4 := Qceiling_lt (q + 1)).
  unfold Z.sub in H2, H4. rewrite inject_Z_plus in H2, H4.
  change (inject_Z (- (1))) with (-1 # 1)%Q in H2, H4.
  assert (Qceiling (q + 1) < Qceiling q + 2).
  { rewrite Zlt_Qlt. rewrite inject_Z_plus. change (inject_Z 2) with 2%Q. lra. }
  assert (Qceiling q < Qceiling (q + 1)).
  { rewrite Zlt_Qlt. lra. }
  lia.
Qed.

Lemma number_eqb_eq (a b : number) : number_eqb a b = true -> a = b.
Proof.
  destruct a, b; simpl; try discriminate; try reflexivity.
  intro H. apply Qc_eq_bool_correct in H. congruence.
Qed.

(** ** Reading the trace: concatenation *)

Lemma recorded_app (l1 l2 : list Event) :
  recorded (l1 ++ l2) = recorded l1 ++ recorded l2.
Proof.
  induction l1 as [|ev l1 IH]; [reflexivity|].
  destruct ev; simpl; rewrite IH; reflexivity.
Qed.

Lemma pushed_app (l1 l2 : list Event) :
  pushed (l1 ++ l2) = pushed l1 ++ pushed l2.
Proof.
  induction l1 as [|ev l1 IH]; [reflexivity|].
  destruct ev; simpl; rewrite IH; reflexivity.
Qed.

Lemma cycled_app (l1 l2 : list Event) :
  cycled (l1 ++ l2) = cycled l1 ++ cycled l2.
Proof.
  induction l1 as [|ev l1 IH]; [reflexivity|].
  destruct ev; simpl; rewrite IH; reflexivity.
Qed.

(** ** Composing summaries *)

Section Summaries.

Context {E : Type}.
Variable p : Benchmark E.

Lemma effect_refl (w : World E) : effect w w [].
Proof.
  split; [now rewrite app_nil_r | now rewrite orb_false_r].
Qed.

Lemma effect_trans (w w1 w2 : World E) (e1 e2 : list Event) :
  effect w w1 e1 -> effect w1 w2 e2 -> effect w w2 (e1 ++ e2).
Proof.
  intros [L1 F1] [L2 F2]. split.
  - rewrite L2, L1, app_assoc. reflexivity.
  - rewrite F2, F1, existsb_app, orb_assoc. reflexivity.
Qed.

Lemma outcome_ok_app {A} (r : Res E A) (w' : World E) (e1 e2 : list Event) :
  existsb is_alarm e1 = false ->
  outcome_ok r w' e2 -> outcome_ok r w' (e1 ++ e2).
Proof.
  intros H1. destruct r as [a|[err|who v|who]|]; simpl; rewrite ?existsb_app, ?H1; simpl; auto.
  intros [He (c & ext0 & -> & H0)]. split; [exact He|].
  exists c, (e1 ++ ext0). rewrite app_assoc, existsb_app, H1, H0. auto.
Qed.

Lemma spec_ret {A} (w : World E) (a : A) V :
  V a [] w -> spec_at p w (ret a) V.
Proof.
  intro HV. exists []. simpl. repeat split; auto using effect_refl.
  - apply effect_refl.
  - apply effect_refl.
  - intros a' Ha. inversion Ha. subst. exact HV.
Qed.

Lemma spec_conseq {A} (w : World E) (m : M E A) (V V' : A -> list Event -> World E -> Prop) :
  spec_at p w m V' ->
  (forall a e w', V' a e w' -> effect w w' e -> V a e w') ->
  spec_at p w m V.
Proof.
  intros (ext & He & Hf & Ho & Hv) H. exists ext. repeat split; auto; try apply He.
Qed.

Lemma spec_bind {A B} (w : World E) (m : M E A) (f : A -> M E B) V1 V :
  spec_at p w m V1 ->
  (forall a e1 w1, V1 a e1 w1 -> effect w w1 e1 ->
     spec_at p w1 (f a) (fun b e2 w2 => V b (e1 ++ e2) w2)) ->
  spec_at p w (bind m f) V.
Proof.
  intros (e1 & He & Hf & Ho & Hv) Hk. unfold spec_at, bind.
  destruct (m w) as [w1 [a|e|]] eqn:Hm; simpl in *.
  - destruct (Hk a e1 w1 (Hv a eq_refl) He) as (e2 & He2 & Hf2 & Ho2 & Hv2).
    exists (e1 ++ e2). repeat split.
    + apply (effect_trans _ _ _ _ _ He He2).
    + apply (effect_trans _ _ _ _ _ He He2).
    + apply Forall_app; auto.
    + apply outcome_ok_app; auto.
    + exact Hv2.
  - exists e1. split; [exact He|]. split; [exact Hf|]. split; [exact Ho|].
    intros; discriminate.
  - exists e1. split; [exact He|]. split; [exact Hf|]. split; [exact Ho|].
    intros; discriminate.
Qed.

(** *** The primitive steps *)

Lemma spec_perform (w : World E) who body :
  spec_at p w (perform who body) silent.
Proof.
  unfold spec_at, perform.
  destruct (body (w_env w)) as [[[|] [v|v]] e'];
    [exists [EvAbort] | exists [EvAbort] | exists [] | exists []]; simpl;
    repeat split; auto; try discriminate; repeat constructor.
Qed.

Lemma spec_emit (w : World E) ev :
  sampling_event p ev -> is_alarm ev = false -> is_abort ev = false ->
  spec_at p w (emit ev) (fun _ ext _ => ext = [ev]).
Proof.
  intros Hev Hal Hab. exists [ev]. unfold effect. cbn -[is_abort is_alarm].
  rewrite Hal, Hab, !orb_false_r. repeat split; auto.
Qed.

Lemma spec_call (w : World E) who f :
  who <> OnCycle -> who = Unit \/ is_function f = true ->
  spec_at p w (call who f) silent.
Proof.
  intros Hwho Hf.
  assert (Hnc : forall A, spec_at p w (throw (A:=A) (NotCallable who)) silent
                          \/ is_function f = true).
  { intros A. destruct Hf as [->|Hf]; [left|right; exact Hf].
    exists []. simpl. repeat split; auto using app_nil_r, orb_false_r;
      discriminate. }
  destruct f; simpl;
    try (destruct (Hnc (value E)) as [H|H]; [exact H | discriminate H]).
  eapply spec_bind; [apply spec_emit; simpl; auto|].
  intros r1 e1 w1 -> _. eapply spec_conseq; [apply spec_perform|].
  unfold silent. intros r e w' He _. simpl. exact He.
Qed.

Lemma spec_await (w : World E) who v :
  spec_at p w (await who v) silent.
Proof.
  destruct v; simpl; try (apply spec_ret; reflexivity);
    try apply spec_perform;
    destruct (lookup "then" props); try (apply spec_ret; reflexivity);
    apply spec_perform.
Qed.

Lemma spec_checkpoint (w : World E) :
  spec_at p w (checkpoint BetweenRuns) silent.
Proof.
  set (c := BetweenRuns). unfold spec_at, checkpoint.
  exists [EvCheck c (w_aborted w)].
  destruct (w_aborted w) eqn:Hw; simpl; rewrite ?Hw; simpl;
    repeat split; auto; try discriminate; try (repeat constructor);
    try (simpl; rewrite Hw; reflexivity).
  exists c, []. auto.
Qed.

Lemma spec_setTimeout0 timers (w : World E) :
  spec_at p w (setTimeout0 timers) silent.
Proof.
  unfold spec_at, setTimeout0.
  destruct (timers (w_env w)) as [[|] e'];
    [exists [EvAbort] | exists []]; simpl; repeat split; auto;
    repeat constructor.
Qed.

Lemma spec_now Date_now (w : World E) {B} (k : Z -> M E B) V :
  spec_at p w (k (Date_now (w_env w))) V ->
  spec_at p w (bind (now Date_now) k) V.
Proof. intro H. exact H. Qed.

End Summaries.

(** ** The sampling part *)

Section Sampling.

Context {E : Type}.
Variable Date_now : E -> Z.
Variable timers : E -> bool * E.
Variable p : Benchmark E.

Lemma doRun_loop_spec unitFn fnIsPromise calls :
  forall startTime hits samples w,
    0 <= hits ->
    spec_at p w
      (doRun_loop Date_now unitFn fnIsPromise calls startTime
         (num_add (of_Z startTime) (sampleRunTime p)) hits samples)
      (collects samples 1).
Proof.
  induction calls as [|calls IH]; intros startTime hits samples w Hh;
    unfold spec_at; simpl; destruct (w_aborted w) eqn:Hw.
  1-3: exists []; unfold effect, collects; cbn;
       rewrite ?app_nil_r, ?orb_false_r, ?Hw;
       repeat split; auto; try discriminate;
       try (intros ? Ha; inversion Ha; congruence);
       try (match goal with H : Val _ = Val _ |- _ => inversion H; subst end);
       auto; congruence.
  - change (spec_at p w
      (bind (call Unit unitFn) (fun res =>
         bind (if fnIsPromise then await Unit res else ret res) (fun _ =>
           bind (now Date_now) (fun now' =>
             if num_ge (of_Z now') (num_add (of_Z startTime) (sampleRunTime p))
             then bind (emit (EvSample {| hits := hits + 1; duration := now' - startTime |}))
                       (fun _ => ret (samples ++ [{| hits := hits + 1; duration := now' - startTime |}]))
             else doRun_loop Date_now unitFn fnIsPromise calls startTime
                    (num_add (of_Z startTime) (sampleRunTime p)) (hits + 1) samples))))
      (collects samples 1)).
    eapply spec_bind; [apply spec_call; [discriminate | left; reflexivity]|].
    intros res e1 w1 Hs1 _.
    eapply spec_bind.
    { instantiate (1 := silent).
      destruct fnIsPromise; [apply spec_await | apply spec_ret; reflexivity]. }
    intros r2 e2 w2 Hs2 _.
    apply spec_now.
    destruct (num_ge _ _) eqn:Hge.
    + eapply spec_bind.
      { apply spec_emit; simpl; auto. split; simpl; [lia|].
        apply closed_window_duration. exact Hge. }
      intros r3 e3 w3 -> _. apply spec_ret.
      unfold collects, silent in *.
      rewrite !recorded_app, Hs1, Hs2. simpl. auto.
    + eapply spec_conseq; [apply IH; lia|].
      unfold collects, silent in *. intros a e w' [-> Hl] _.
      rewrite !recorded_app, Hs1, Hs2. simpl. auto.
Qed.

Lemma doRun_spec fuel unitFn fnIsPromise samples w :
  spec_at p w (doRun Date_now fuel p unitFn fnIsPromise samples)
    (collects samples 1).
Proof.
  unfold doRun. apply spec_now. apply doRun_loop_spec. lia.
Qed.

Lemma effect_unset (w w' : World E) ext :
  effect w w' ext -> w_aborted w' = false -> w_aborted w = false.
Proof.
  intros [_ H] H'. rewrite H in H'. apply orb_false_iff in H'. tauto.
Qed.

Lemma for_runs_spec fuel unitFn fnIsPromise q :
  actualRunCount p = Fin q ->
  forall bound run samples w,
    bound = Z.to_nat (Qceiling q - run) ->
    spec_at p w
      (for_runs Date_now timers fuel p unitFn fnIsPromise bound run samples)
      (collects samples bound).
Proof.
  intros Hq. induction bound as [|bound IH]; intros run samples w Hb;
    simpl; rewrite Hq; simpl; destruct (Qc_ltb (Qz run) q) eqn:Hlt.
  - apply lt_ceiling in Hlt. lia.
  - apply spec_ret. split; [symmetry; apply app_nil_r | reflexivity].
  - eapply spec_bind; [apply spec_checkpoint|].
    intros r1 e1 w1 Hs1 _.
    eapply spec_bind; [apply spec_setTimeout0|].
    intros r2 e2 w2 Hs2 _.
    eapply spec_bind; [apply doRun_spec|].
    intros samples' e3 w3 [-> Hl3] _.
    eapply spec_conseq; [apply IH; lia|].
    unfold collects, silent in *. intros a e w' [-> Hl] Heff.
    rewrite !recorded_app, Hs1, Hs2. simpl. rewrite <- app_assoc.
    split; [reflexivity|]. intro Hw'. rewrite length_app, Hl, Hl3; auto.
    eapply effect_unset; eauto.
  - assert (~ run < Qceiling q).
    { rewrite <- lt_ceiling. congruence. }
    lia.
Qed.

Lemma actualRunCount_Fin :
  exists q, actualRunCount p = Fin q.
Proof.
  unfold actualRunCount, Math_max, of_Z, num_le.
  destruct (hasWarmupRun p), (Qc_leb (runsPerUnit p) (Qz 1)); simpl; eauto.
Qed.

Lemma sample_unit_spec fuel unit w :
  spec_at p w (sample_unit Date_now timers fuel p unit) (sampled p).
Proof.
  unfold sample_unit.
  eapply spec_bind.
  { instantiate (1 := silent).
    destruct (is_function (u_prepare unit)) eqn:Hp;
      [|apply spec_ret; reflexivity].
    eapply spec_bind; [apply spec_call; [discriminate | right; exact Hp]|].
    intros r e w' Hs _. eapply spec_conseq; [apply spec_await|].
    unfold silent in *. intros. rewrite recorded_app, Hs. assumption. }
  intros r2 e2 w2 Hs2 _.
  eapply spec_bind; [apply spec_call; [discriminate | left; reflexivity]|].
  intros probe e3 w3 Hs3 _.
  destruct actualRunCount_Fin as [q Hq].
  eapply spec_bind.
  { apply (for_runs_spec fuel (u_unit unit) (isPromise probe) q Hq).
    rewrite Hq. simpl. f_equal. lia. }
  intros samples e4 w4 [Hs4 Hl4] _.
  eapply spec_bind.
  { instantiate (1 := silent).
    destruct (is_function (u_teardown unit)) eqn:Hp;
      [|apply spec_ret; reflexivity].
    eapply spec_bind; [apply spec_call; [discriminate | right; exact Hp]|].
    intros r e w' Hs _. eapply spec_conseq; [apply spec_await|].
    unfold silent in *. intros. rewrite recorded_app, Hs. assumption. }
  intros r5 e5 w5 Hs5 Heff5.
  apply spec_ret. unfold sampled, silent in *.
  rewrite !recorded_app, Hs2, Hs3, Hs5, app_nil_r. simpl in *.
  subst samples. split; [reflexivity|].
  intro Hw. apply Hl4. eapply effect_unset; eauto.
Qed.

End Sampling.

(** ** Traces of a whole run *)

Lemma quiet_app (l t : list Event) :
  quiet (l ++ t) =
  if existsb is_abort l then quiet l && negb (existsb is_report t)
  else quiet t.
Proof.
  induction l as [|ev l IH]; [reflexivity|].
  destruct ev; simpl; try exact IH.
  rewrite existsb_app, negb_orb. reflexivity.
Qed.

Lemma stats_checked_app (l t : list Event) :
  stats_checked l = true -> stats_checked (l ++ t) = stats_checked t.
Proof.
  induction l as [|ev l IH]; [reflexivity|].
  destruct ev; simpl; try exact IH.
  destruct l as [|[[| |] b| | | | | |] l']; simpl; try discriminate.
  exact IH.
Qed.

Lemma stats_done_app (d : bool) (l t : list Event) :
  stats_done d (l ++ t) = stats_done (stats_done d l) t.
Proof.
  revert d. induction l as [|ev l IH]; intro d; [reflexivity|].
  destruct ev as [[| |] b| | | | | |]; simpl; apply IH.
Qed.

Lemma calls_before_stats_app (d : bool) (l t : list Event) :
  calls_before_stats d (l ++ t) =
  calls_before_stats d l && calls_before_stats (stats_done d l) t.
Proof.
  revert d. induction l as [|ev l IH]; intro d; [reflexivity|].
  destruct ev as [[| |] b| | | | | |]; simpl; rewrite ?IH, ?andb_assoc;
    reflexivity.
Qed.

Lemma abort_last_app (l t : list Event) :
  existsb is_abort l = false -> abort_last (l ++ t) = abort_last t.
Proof.
  induction l as [|ev l IH]; [reflexivity|].
  destruct ev; simpl; try exact IH. discriminate.
Qed.

Section SamplingEvents.

Context {E : Type}.
Variable sqrtQ : Qc -> Qc.
Variable p : Benchmark E.

Lemma sampling_no_report (ext : list Event) :
  Forall (sampling_event p) ext -> existsb is_report ext = false.
Proof.
  induction 1 as [|ev ext Hev _ IH]; [reflexivity|].
  destruct ev; simpl in *; auto; contradiction.
Qed.

Lemma sampling_stats_checked (ext : list Event) :
  Forall (sampling_event p) ext -> stats_checked ext = true.
Proof.
  induction 1 as [|ev ext Hev _ IH]; [reflexivity|].
  destruct ev; simpl in *; auto; contradiction.
Qed.

Lemma sampling_pushed (ext : list Event) :
  Forall (sampling_event p) ext -> pushed ext = [].
Proof.
  induction 1 as [|ev ext Hev _ IH]; [reflexivity|].
  destruct ev; simpl in *; auto; contradiction.
Qed.

Lemma sampling_cycled (ext : list Event) :
  Forall (sampling_event p) ext -> cycled ext = [].
Proof.
  induction 1 as [|ev ext Hev _ IH]; [reflexivity|].
  destruct ev; simpl in *; auto; contradiction.
Qed.

Lemma sampling_stats_done (ext : list Event) :
  Forall (sampling_event p) ext ->
  stats_done false ext = false /\ calls_before_stats false ext = true.
Proof.
  induction 1 as [|ev ext Hev _ IH]; [split; reflexivity|].
  destruct ev as [c b| | | | | |]; simpl in *; auto; try contradiction.
  subst c. exact IH.
Qed.

Lemma sampling_run_event (ext : list Event) :
  Forall (sampling_event p) ext -> Forall (run_event sqrtQ p) ext.
Proof.
  apply Forall_impl. intros [] H; simpl in *; auto; contradiction.
Qed.

(** The sampling part keeps the trace of the run in order. *)
Lemma trace_ok_sampling (w w' : World E) (ext : list Event) :
  trace_ok sqrtQ p w -> stats_done false (w_log w) = false ->
  effect w w' ext -> Forall (sampling_event p) ext ->
  trace_ok sqrtQ p w'.
Proof.
  intros (Hf & He & Hq & Hs & Hc) Hd [HL HF] Hext. unfold trace_ok.
  rewrite HL, HF, Hf, existsb_app. repeat split.
  - apply Forall_app. split; [exact He | apply sampling_run_event; exact Hext].
  - rewrite quiet_app, Hq, (sampling_no_report _ Hext). simpl.
    destruct (existsb is_abort (w_log w)); [reflexivity|].
    clear - Hext. induction Hext as [|ev ext Hev Hext IH]; [reflexivity|].
    destruct ev; simpl in *; auto; try contradiction.
    rewrite (sampling_no_report _ Hext). reflexivity.
  - rewrite stats_checked_app by exact Hs. apply sampling_stats_checked, Hext.
  - rewrite calls_before_stats_app, Hc, Hd. apply sampling_stats_done, Hext.
Qed.

End SamplingEvents.

(** ** The number of runs *)

Lemma Qz_le_1_ceiling (q : Qc) : (Qz 1 <= q)%Q -> 1 <= Qceiling q.
Proof.
  intro H. rewrite Qz_this in H.
  change 1 with (Qceiling (inject_Z 1)). apply Qceiling_resp_le. exact H.
Qed.

Lemma clamped_ge_1 (r : Qc) : 1 <= Qceiling (Qc_max r (Qz 1)).
Proof.
  unfold Qc_max. destruct (Qc_leb r (Qz 1)) eqn:H.
  - reflexivity.
  - apply Qz_le_1_ceiling.
    destruct (Qc_leb (Qz 1) r) eqn:H'; [apply Qc_leb_iff; exact H'|].
    assert (Hlt : Qc_ltb r (Qz 1) = true) by (unfold Qc_ltb, Qc_leb in *; now rewrite H').
    apply Qc_ltb_iff in Hlt. apply Qlt_le_weak in Hlt.
    apply Qc_leb_iff in Hlt. congruence.
Qed.

Lemma run_bound_succ (x : Qc) :
  1 <= Qceiling x ->
  run_bound (num_add (Fin x) (of_Z 1)) = S (Z.to_nat (Qceiling x)).
Proof.
  intro H. unfold of_Z, num_add, run_bound.
  rewrite (Qceiling_comp _ _ (Qc_plus_this x (Qz 1))).
  rewrite (Qceiling_comp (x + Qz 1) (x + 1)%Q) by (rewrite Qz_this; reflexivity).
  rewrite Qceiling_succ, Z2Nat.inj_add by lia. simpl. lia.
Qed.

Section Counts.

Context {E : Type}.
Variable p : Benchmark E.

(** The runs of one unit: the clamped [runsPerUnit], and one more with a
    warmup run. *)
Lemma run_bound_actual :
  run_bound (actualRunCount p) =
  if hasWarmupRun p then S (clamped_runs (runsPerUnit p))
  else clamped_runs (runsPerUnit p).
Proof.
  unfold actualRunCount, clamped_runs.
  assert (H1 := clamped_ge_1 (runsPerUnit p)).
  replace (Math_max (Fin (runsPerUnit p)) (of_Z 1))
    with (Fin (Qc_max (runsPerUnit p) (Qz 1)))
    by (unfold Math_max, Qc_max, of_Z, num_le;
        destruct (Qc_leb (runsPerUnit p) (Qz 1)); reflexivity).
  destruct (hasWarmupRun p); [apply run_bound_succ; exact H1 | reflexivity].
Qed.

End Counts.

(** For an integer [n >= 1] the clamp changes nothing. *)
Lemma clamped_runs_integer (n : Z) : 1 <= n -> clamped_runs (Qz n) = Z.to_nat n.
Proof.
  intro H. unfold clamped_runs, Qc_max.
  destruct (Qc_leb (Qz n) (Qz 1)) eqn:Hle.
  - apply Qc_leb_iff in Hle. rewrite !Qz_this in Hle.
    rewrite <- Zle_Qle in Hle. assert (n = 1) by lia. subst. reflexivity.
  - rewrite (Qceiling_comp _ _ (Qz_this n)), Qceiling_Z. reflexivity.
Qed.

(** ** The statistics *)

Lemma num_add_of_Z (a b : Z) : num_add (of_Z a) (of_Z b) = of_Z (a + b).
Proof.
  unfold of_Z. simpl. f_equal. apply Qc_is_canon.
  rewrite Qc_plus_this, !Qz_this, inject_Z_plus. reflexivity.
Qed.

Lemma fold_hits (ss : list Sample) (a : Z) :
  fold_left (fun s v => num_add s (of_Z (hits v))) ss (of_Z a) =
  of_Z (a + sum_hits ss).
Proof.
  revert a. induction ss as [|s ss IH]; intro a;
    unfold sum_hits; cbn [fold_left fold_right].
  - f_equal. lia.
  - fold (sum_hits ss). rewrite num_add_of_Z, IH. f_equal. lia.
Qed.

Lemma Qz_eq_0 (z : Z) : Qz z = Qz 0 -> z = 0.
Proof.
  intro H. assert (H' : (this (Qz z) == this (Qz 0))%Q) by (rewrite H; reflexivity).
  rewrite !Qz_this in H'. apply inject_Z_injective. exact H'.
Qed.

Lemma Qc_is0_Qz (z : Z) : z <> 0 -> Qc_is0 (Qz z) = false.
Proof.
  intro H. unfold Qc_is0. destruct (Qc_eq_bool (Qz z) (Qz 0)) eqn:Heq; [|reflexivity].
  apply Qc_eq_bool_correct in Heq. apply Qz_eq_0 in Heq. contradiction.
Qed.

Lemma length_pos {A} (l : list A) : l <> [] -> Z.of_nat (List.length l) <> 0.
Proof. destruct l; [congruence | simpl; lia]. Qed.

(** The mean of line 218 is the arithmetic mean of the hits. *)
Lemma mean_hits_mean (ss : list Sample) :
  ss <> [] -> mean_hits ss = Fin (mean ss).
Proof.
  intro H. unfold mean_hits, mean, of_nat.
  rewrite (fold_hits ss 0). simpl Z.add. unfold of_Z at 1 2. simpl.
  rewrite Qc_is0_Qz by (apply length_pos; exact H). reflexivity.
Qed.

Lemma fold_sq_dev (m : Qc) (ss : list Sample) (a : Qc) :
  fold_left (fun s v => num_add s v)
    (map (fun v => Math_pow (num_sub (of_Z (hits v)) (Fin m)) 2) ss) (Fin a) =
  Fin (a + sum_sq_dev m ss)%Qc.
Proof.
  revert a. induction ss as [|s ss IH]; intro a;
    unfold sum_sq_dev;
    cbn [fold_left fold_right map Math_pow num_sub num_neg num_add num_mul of_Z];
    change (Qz 1) with 1%Qc.
  - f_equal. change (Qz 0) with 0%Qc. ring.
  - fold (sum_sq_dev m ss). rewrite IH. f_equal. ring.
Qed.

Lemma Qc_mult_this (a b : Qc) : (this (a * b)%Qc == this a * this b)%Q.
Proof. change (this (a * b)%Qc) with (Qred (this a * this b)). apply Qred_correct. Qed.

Lemma Qc_div_this (a b : Qc) : (this (a / b)%Qc == this a / this b)%Q.
Proof.
  unfold Qcdiv. rewrite Qc_mult_this.
  change (this (/ b)%Qc) with (Qred (/ this b)). rewrite Qred_correct. reflexivity.
Qed.

Lemma sum_sq_dev_nonneg (m : Qc) (ss : list Sample) :
  (0 <= sum_sq_dev m ss)%Q.
Proof.
  induction ss as [|s ss IH]; unfold sum_sq_dev; cbn [fold_right].
  - rewrite Qz_this. apply Qle_refl.
  - fold (sum_sq_dev m ss). rewrite Qc_plus_this, Qc_mult_this.
    set (x := this (Qz (hits s) - m)%Qc) in *.
    assert (0 <= x * x)%Q by nra. lra.
Qed.

Lemma population_variance_nonneg (ss : list Sample) :
  ss <> [] -> (0 <= population_variance ss)%Q.
Proof.
  intro H. unfold population_variance. rewrite Qc_div_this.
  apply Qle_shift_div_l.
  - rewrite Qz_this. change 0%Q with (inject_Z 0). rewrite <- Zlt_Qlt.
    destruct ss; [congruence | simpl; lia].
  - rewrite Qmult_0_l. apply sum_sq_dev_nonneg.
Qed.

(** The deviation of lines 219-223 is the population standard deviation. *)
Lemma dev_hits_stddev (sqrtQ : Qc -> Qc) (ss : list Sample) :
  ss <> [] ->
  dev_hits sqrtQ ss (Fin (mean ss)) = Fin (population_stddev sqrtQ ss).
Proof.
  intro H. unfold dev_hits, population_stddev, of_nat.
  change (of_Z 0) with (Fin (Qz 0)). rewrite fold_sq_dev.
  replace (Qz 0 + sum_sq_dev (mean ss) ss)%Qc with (sum_sq_dev (mean ss) ss)
    by (change (Qz 0) with 0%Qc; ring).
  unfold of_Z, num_div. rewrite Qc_is0_Qz by (apply length_pos; exact H).
  fold (population_variance ss). unfold Math_sqrt.
  assert (Hn : Qc_ltb (population_variance ss) (Qz 0) = false).
  { apply Qc_ltb_false_iff. rewrite Qz_this.
    apply population_variance_nonneg. exact H. }
  rewrite Hn. reflexivity.
Qed.

(** With no sample, the mean and the deviation are not-a-number. *)
Lemma stats_of_nothing (sqrtQ : Qc -> Qc) :
  mean_hits [] = NaN /\ dev_hits sqrtQ [] (mean_hits []) = NaN.
Proof. split; reflexivity. Qed.

Lemma toPerSec_NaN (srt : number) : toPerSec srt NaN = NaN.
Proof. reflexivity. Qed.

(** ** One unit, and the loop over the units *)

Lemma shift_warmup_ok (hasW : bool) (old : option Sample)
    (recd : list Sample) (n : nat) :
  List.length recd = (if hasW then S n else n) ->
  let '(wu, ss) := shift_warmup hasW old recd in
  List.length ss = n /\
  (if hasW then exists s0, wu = Some s0 /\ recd = s0 :: ss else ss = recd).
Proof.
  destruct hasW, recd as [|s0 recd]; simpl; intro H; try discriminate; eauto.
Qed.

Section RunFacts.

Context {E : Type}.
Variable Date_now : E -> Z.
Variable timers : E -> bool * E.
Variable sqrtQ : Qc -> Qc.
Variable fuel : nat.
Variable p : Benchmark E.
Variable onCycle : option (OnCycleFn E).

Lemma trace_ok_app (w w' : World E) (tail : list Event) :
  trace_ok sqrtQ p w ->
  w_log w' = w_log w ++ tail ->
  w_aborted w' = w_aborted w || existsb is_abort tail ->
  Forall (run_event sqrtQ p) tail ->
  stats_checked tail = true ->
  (if w_aborted w then existsb is_report tail = false
   else quiet tail = true) ->
  (forall d, calls_before_stats d tail = true) ->
  trace_ok sqrtQ p w'.
Proof.
  intros (Hf & He & Hq & Hs & Hc) HL HF Hev Hst Hqt Hct. unfold trace_ok.
  rewrite HL, HF, Hf, existsb_app. repeat split.
  - apply Forall_app. auto.
  - rewrite quiet_app, Hq. rewrite Hf in Hqt.
    destruct (existsb is_abort (w_log w)); [rewrite Hqt; reflexivity | exact Hqt].
  - rewrite stats_checked_app by exact Hs. exact Hst.
  - rewrite calls_before_stats_app, Hc, Hct. reflexivity.
Qed.

Lemma make_results_event (unit : UnitDescriptor E) wu ss :
  List.length ss = clamped_runs (runsPerUnit p) ->
  (hasWarmupRun p = true -> wu <> None) ->
  run_event sqrtQ p (EvPush (make_results sqrtQ p unit wu ss)).
Proof. intros Hl Hw. split; [reflexivity|]. split; assumption. Qed.

Lemma stats_event (ss : list Sample) :
  run_event sqrtQ p
    (EvStats (List.length ss) (mean_hits ss)
       (dev_hits sqrtQ ss (mean_hits ss))).
Proof. exists ss. auto. Qed.

(** The second part of the loop body, from a state where the sampling part
    has recorded [recd]. *)
Lemma report_unit_ok unit rs recd (w : World E) :
  trace_ok sqrtQ p w ->
  existsb is_alarm (w_log w) = false ->
  pushed (w_log w) = rs ->
  cycled (w_log w) = match onCycle with Some _ => rs | None => [] end ->
  Forall (fun r =>
            List.length (samples r) = clamped_runs (runsPerUnit p) /\
            (hasWarmupRun p = true -> warmup r <> None)) rs ->
  forall recs, recorded (w_log w) = recs ++ recd -> recs = flat_map (all_recorded p) rs ->
  (w_aborted w = false -> List.length recd = run_bound (actualRunCount p)) ->
  let o := report_unit sqrtQ p onCycle unit rs recd w in
  trace_ok sqrtQ p (fst o) /\
  outcome_ok (snd o) (fst o) (w_log (fst o)) /\
  forall rs', snd o = Val rs' -> results_ok p onCycle (fst o) rs'.
Proof.
  intros Htr Hal Hpu Hcy Hall recs Hrec Hrecs Hlen.
  unfold report_unit.
  destruct (shift_warmup (hasWarmupRun p) (u_warmup unit) recd) as [wu ss] eqn:Hsh.
  set (r := make_results sqrtQ p unit wu ss).
  set (st := EvStats (List.length ss) (mean_hits ss) (dev_hits sqrtQ ss (mean_hits ss))).
  assert (Hst : run_event sqrtQ p st) by apply stats_event.
  destruct (w_aborted w) eqn:Hw.
  - (* the flag is set: the check raises *)
    unfold bind, emit, checkpoint; cbn; rewrite Hw; cbn.
    split; [|split].
    + eapply trace_ok_app with (tail := [st; EvCheck AfterStats true]);
        [exact Htr | cbn; now rewrite <- !app_assoc | cbn; now rewrite Hw
        | repeat constructor; auto | reflexivity | rewrite Hw; reflexivity
        | intros []; reflexivity].
    + split; [reflexivity|]. exists AfterStats, (w_log w ++ [st]).
      split; [reflexivity|]. rewrite existsb_app, Hal. reflexivity.
    + intros; discriminate.
  - (* the flag is unset: the results are built, pushed and reported *)
    specialize (Hlen eq_refl). rewrite run_bound_actual in Hlen.
    assert (Hso := shift_warmup_ok (hasWarmupRun p) (u_warmup unit) recd
                     (clamped_runs (runsPerUnit p))).
    rewrite Hsh in Hso.
    assert (Hso' : List.length ss = clamped_runs (runsPerUnit p) /\
                   (hasWarmupRun p = true -> wu <> None) /\
                   all_recorded p r = recd).
    { unfold all_recorded, with_warmup. subst r.
      unfold make_results. cbn [samples warmup].
      destruct (hasWarmupRun p).
      - destruct (Hso Hlen) as [Hl (s0 & -> & ->)].
        repeat split; auto; congruence.
      - destruct (Hso Hlen) as [Hl ->]. repeat split; auto; congruence. }
    clear Hso. destruct Hso' as (Hl & Hwu & Hrd).
    assert (Hr : run_event sqrtQ p (EvPush r))
      by (apply make_results_event; assumption).
    assert (Hab : existsb is_abort (w_log w) = false).
    { destruct Htr as [Hf _]. congruence. }
    assert (Hres : forall tail,
              pushed tail = [r] ->
              cycled tail = match onCycle with Some _ => [r] | None => [] end ->
              recorded tail = [] ->
              abort_last tail = true ->
              forall w', w_log w' = w_log w ++ tail ->
              results_ok p onCycle w' (rs ++ [r])).
    { intros tail Hp Hc Hre Hla w' HL. unfold results_ok. rewrite HL.
      rewrite pushed_app, cycled_app, recorded_app, Hpu, Hcy, Hrec, Hp, Hc, Hre.
      rewrite abort_last_app by exact Hab.
      rewrite flat_map_app, Hrecs. cbn [flat_map]. rewrite Hrd, !app_nil_r.
      repeat split; auto.
      - destruct onCycle; auto.
      - apply Forall_app. split; [exact Hall|]. repeat constructor; auto. }
    assert (Htail : forall tail w',
              w_log w' = w_log w ++ st :: EvCheck AfterStats false :: EvPush r :: tail ->
              w_aborted w' = existsb is_abort tail ->
              tail = [] \/ tail = [EvOnCycle r] \/ tail = [EvOnCycle r; EvAbort] ->
              trace_ok sqrtQ p w' /\
              existsb is_alarm (w_log w') = false).
    { intros tail w' HL HF Ht. split.
      - eapply trace_ok_app;
          [exact Htr | exact HL | rewrite Hw; exact HF | | | | ].
        + destruct Ht as [->|[->| ->]]; repeat constructor; auto.
        + destruct Ht as [->|[->| ->]]; reflexivity.
        + rewrite Hw. destruct Ht as [->|[->| ->]]; reflexivity.
        + intros []; destruct Ht as [->|[->| ->]]; reflexivity.
      - rewrite HL, existsb_app, Hal.
        destruct Ht as [->|[->| ->]]; reflexivity. }
    destruct onCycle as [f|].
    + unfold bind, emit, checkpoint, perform; cbn; rewrite Hw; cbn.
      destruct (f r (w_env w)) as [[ab out] e'] eqn:Hf.
      assert (HT : trace_ok sqrtQ p
                     (world_step ab e'
                        {| w_aborted := false; w_env := w_env w;
                           w_log := (((w_log w ++ [st]) ++ [EvCheck AfterStats false])
                                       ++ [EvPush r]) ++ [EvOnCycle r] |}) /\
                   existsb is_alarm
                     (w_log (world_step ab e'
                        {| w_aborted := false; w_env := w_env w;
                           w_log := (((w_log w ++ [st]) ++ [EvCheck AfterStats false])
                                       ++ [EvPush r]) ++ [EvOnCycle r] |})) = false).
      { apply (Htail (EvOnCycle r :: (if ab then [EvAbort] else []))).
        - cbn. rewrite <- !app_assoc. reflexivity.
        - destruct ab; reflexivity.
        - destruct ab; auto. }
      destruct HT as [HT1 HT2].
      destruct out as [v|v]; cbn; (split; [exact HT1 | split; [exact HT2|]]).
      * intros rs' Hrs'. inversion Hrs'; subst rs'.
        apply (Hres ([st; EvCheck AfterStats false; EvPush r; EvOnCycle r]
                       ++ (if ab then [EvAbort] else [])));
          try (destruct ab; reflexivity).
        cbn. now rewrite <- !app_assoc.
      * intros; discriminate.
    + unfold bind, emit, checkpoint; cbn; rewrite Hw; cbn.
      assert (HT : trace_ok sqrtQ p
                     {| w_aborted := false; w_env := w_env w;
                        w_log := ((w_log w ++ [st]) ++ [EvCheck AfterStats false])
                                    ++ [EvPush r] |} /\
                   existsb is_alarm
                     (((w_log w ++ [st]) ++ [EvCheck AfterStats false])
                                    ++ [EvPush r]) = false).
      { apply (Htail []); cbn; auto. rewrite <- !app_assoc. reflexivity. }
      destruct HT as [HT1 HT2].
      split; [exact HT1 | split; [exact HT2|]].
      intros rs' Hrs'. inversion Hrs'; subst rs'.
      apply (Hres [st; EvCheck AfterStats false; EvPush r]); try reflexivity.
      cbn. now rewrite <- !app_assoc.
Qed.

(** The sampling and the report of one unit, after the check of line 146
    has found the flag unset. *)
Lemma run_unit_body_ok unit rs (w : World E) :
  trace_ok sqrtQ p w ->
  stats_done false (w_log w) = false ->
  existsb is_alarm (w_log w) = false ->
  pushed (w_log w) = rs ->
  cycled (w_log w) = match onCycle with Some _ => rs | None => [] end ->
  recorded (w_log w) = flat_map (all_recorded p) rs ->
  Forall (fun r =>
            List.length (samples r) = clamped_runs (runsPerUnit p) /\
            (hasWarmupRun p = true -> warmup r <> None)) rs ->
  left_ok sqrtQ p onCycle
    (bind (sample_unit Date_now timers fuel p unit)
          (report_unit sqrtQ p onCycle unit rs) w).
Proof.
  intros Htr Hd Hal Hpu Hcy Hrec Hall.
  unfold bind.
  destruct (sample_unit_spec Date_now timers p fuel unit w)
    as (ext & Heff & Hfor & Hout & Hval).
  assert (Htr1 := trace_ok_sampling sqrtQ p _ _ _ Htr Hd Heff Hfor).
  destruct Heff as [HL HF].
  destruct (sample_unit Date_now timers fuel p unit w) as [w1 [recd|e|]];
    cbn [fst snd] in *.
  - destruct (Hval recd eq_refl) as [Hrd Hlen].
    apply report_unit_ok with (recs := flat_map (all_recorded p) rs);
      [ exact Htr1
      | rewrite HL, existsb_app, Hal, Hout; reflexivity
      | rewrite HL, pushed_app, (sampling_pushed p ext Hfor), app_nil_r;
        exact Hpu
      | rewrite HL, cycled_app, (sampling_cycled p ext Hfor), app_nil_r;
        exact Hcy
      | exact Hall
      | rewrite HL, recorded_app, Hrec, Hrd; reflexivity
      | reflexivity
      | exact Hlen ].
  - unfold left_ok; cbn [fst snd].
    split; [exact Htr1|]. split; [|intros; discriminate].
    rewrite HL. apply outcome_ok_app; assumption.
  - unfold left_ok; cbn [fst snd].
    split; [exact Htr1|]. split; [|intros; discriminate].
    rewrite HL. apply outcome_ok_app; assumption.
Qed.

Lemma run_unit_ok unit rs (w : World E) :
  trace_ok sqrtQ p w ->
  existsb is_alarm (w_log w) = false ->
  results_ok p onCycle w rs ->
  left_ok sqrtQ p onCycle
    (run_unit Date_now timers sqrtQ fuel p onCycle unit rs w).
Proof.
  intros Htr Hal (Hpu & Hcy & Hrec & Hall & _).
  unfold run_unit. unfold bind at 1, checkpoint.
  assert (Htr0 : forall w0,
            w_log w0 = w_log w ++ [EvCheck AtUnitStart (w_aborted w)] ->
            w_aborted w0 = w_aborted w ->
            trace_ok sqrtQ p w0).
  { intros w0 HL HF.
    eapply trace_ok_app; [exact Htr | exact HL | | | | | ].
    - rewrite HF. cbn. now rewrite orb_false_r.
    - repeat constructor.
    - reflexivity.
    - destruct (w_aborted w); reflexivity.
    - intros []; reflexivity. }
  destruct (w_aborted w) eqn:Hw.
  - unfold left_ok; cbn [fst snd w_log].
    split; [apply Htr0; reflexivity|].
    split; [|intros; discriminate].
    split; [reflexivity|]. exists AtUnitStart, (w_log w). auto.
  - apply run_unit_body_ok; cbn [w_log].
    + apply Htr0; reflexivity.
    + rewrite stats_done_app. reflexivity.
    + rewrite existsb_app, Hal. reflexivity.
    + rewrite pushed_app, app_nil_r. exact Hpu.
    + rewrite cycled_app, app_nil_r. exact Hcy.
    + rewrite recorded_app, app_nil_r. exact Hrec.
    + exact Hall.
Qed.

Lemma run_units_ok us : forall rs (w : World E),
  trace_ok sqrtQ p w ->
  existsb is_alarm (w_log w) = false ->
  results_ok p onCycle w rs ->
  left_ok sqrtQ p onCycle (run_units Date_now timers sqrtQ fuel p onCycle us rs w).
Proof.
  induction us as [|unit us IH]; intros rs w Htr Hal Hres.
  - split; [exact Htr|]. split; [exact Hal|].
    intros rs' H. inversion H; subst. exact Hres.
  - cbn [run_units]. unfold bind.
    destruct (run_unit_ok unit rs w Htr Hal Hres) as (Htr1 & Hout & Hval).
    destruct (run_unit Date_now timers sqrtQ fuel p onCycle unit rs w)
      as [w1 [rs1|e|]]; cbn [fst snd] in *.
    + apply IH; auto.
    + split; [exact Htr1|]. split; [exact Hout | intros; discriminate].
    + split; [exact Htr1|]. split; [exact Hout | intros; discriminate].
Qed.

(** The summary of a whole run. *)
Lemma run_summary (e : E) :
  left_ok sqrtQ p onCycle (run Date_now timers sqrtQ fuel p onCycle e).
Proof.
  unfold run. apply run_units_ok.
  - repeat split; auto.
  - reflexivity.
  - repeat split; auto. destruct onCycle; reflexivity.
Qed.

End RunFacts.

(** ** Reading the summary *)

Lemma alarm_in (l : list Event) (c : Checkpoint) :
  In (EvCheck c true) l -> existsb is_alarm l = true.
Proof.
  intro H. apply existsb_exists. exists (EvCheck c true). auto.
Qed.

Lemma abort_in (l1 l2 : list Event) :
  existsb is_abort (l1 ++ EvAbort :: l2) = true.
Proof.
  apply existsb_exists. exists EvAbort. split; [|reflexivity].
  apply in_or_app. right. left. reflexivity.
Qed.

Lemma abort_last_split (l1 l2 : list Event) :
  abort_last (l1 ++ EvAbort :: l2) = true -> l2 = [].
Proof.
  induction l1 as [|ev l1 IH]; simpl.
  - destruct l2; [reflexivity | discriminate].
  - destruct ev; auto. destruct l1; simpl; discriminate.
Qed.

Lemma pushed_in (l : list Event) (r : BenchmarkResults) :
  In r (pushed l) -> In (EvPush r) l.
Proof.
  induction l as [|ev l IH]; simpl; [tauto|].
  destruct ev; simpl; intro H; auto.
  destruct H as [->|H]; auto.
Qed.

(** ** The claims *)

Section Claims.

Context {E : Type}.
Variable Date_now : E -> Z.
Variable timers : E -> bool * E.
Variable sqrtQ : Qc -> Qc.
Variable fuel : nat.
Variable p : Benchmark E.
Variable onCycle : option (OnCycleFn E).
Variable e : E.



(** C9. When a unit reaches the aggregation with no recorded sample, the
    mean and the standard deviation are computed without failure: the
    division by [runs = 0] yields not-a-number. *)
Theorem no_samples_not_a_number (mean_of_hits dev_of_hits : number) :
  In (EvStats 0 mean_of_hits dev_of_hits)
     (w_log (fst (run Date_now timers sqrtQ fuel p onCycle e))) ->
  mean_of_hits = NaN /\ dev_of_hits = NaN /\
  toPerSec (sampleRunTime p) mean_of_hits = NaN /\
  toPerSec (sampleRunTime p) dev_of_hits = NaN.
Proof.
  intro H.
  destruct (run_summary Date_now timers sqrtQ fuel p onCycle e)
    as ((_ & Hev & _) & _).
  rewrite Forall_forall in Hev. destruct (Hev _ H) as (ss & Hn & -> & ->).
  destruct ss; [|discriminate]. repeat split.
Qed.




(** C3, amended. For every unit, [prepare], the unit function and
    [teardown] are all called before the number of samples, their mean and
    their standard deviation are computed, and the flag is checked directly
    after that computation, before the result is built; once [abort()] was
    called no result is appended and [onCycle] is not called; and when
    anything at all happened after [abort()] was called, [run] is rejected. *)
Theorem final_check_follows_stats :
  calls_before_stats false
    (w_log (fst (run Date_now timers sqrtQ fuel p onCycle e))) = true /\
  stats_checked (w_log (fst (run Date_now timers sqrtQ fuel p onCycle e))) = true /\
  quiet (w_log (fst (run Date_now timers sqrtQ fuel p onCycle e))) = true /\
  forall l1 l2,
    w_log (fst (run Date_now timers sqrtQ fuel p onCycle e)) =
      l1 ++ EvAbort :: l2 ->
    l2 <> [] ->
    exists exn, snd (run Date_now timers sqrtQ fuel p onCycle e) = Exc exn.
Proof.
  destruct (run_summary Date_now timers sqrtQ fuel p onCycle e)
    as ((Hf & _ & Hq & Hs & Hc) & Hout & Hval).
  split; [exact Hc|]. split; [exact Hs|]. split; [exact Hq|].
  intros l1 l2 HL Hl2.
  destruct (snd (run Date_now timers sqrtQ fuel p onCycle e)) as [rs|exn|].
  - destruct (Hval rs eq_refl) as (_ & _ & _ & _ & Hlast).
    rewrite HL in Hlast. apply abort_last_split in Hlast. contradiction.
  - eauto.
  - destruct Hout as [_ Hun]. rewrite Hf, HL, abort_in in Hun. discriminate.
Qed.


End Claims.

(** C2, amended. For every call [add(name, f)] whose second argument is a
    function, the registered descriptor has [f] as its unit function, and its
    [prepare] and [teardown] are the values of the properties [prepare] and
    [teardown] of [f] itself: [undefined] when [f] has no such property. *)
Theorem add_callable_descriptor {E} (p : Benchmark E) (name : string)
    (body : Body E) (props : list (string * value E)) :
  add p name (VFunction body props) =
    inr {| units := units p ++
             [ {| u_name := name;
                  u_prepare := lookup "prepare" props;
                  u_unit := VFunction body props;
                  u_teardown := lookup "teardown" props;
                  u_warmup := None |} ];
           aborted := aborted p;
           warmupTime := warmupTime p;
           maxUnitTime := maxUnitTime p;
           runsPerUnit := runsPerUnit p |} /\
  forall k, lookup (E:=E) k [] = VUndefined.
Proof. split; reflexivity. Qed.

(** ** The claims on the simulated world *)

Ltac find_event := vm_compute; repeat (first [left; reflexivity | right]).

(** C1. The code clamps [runsPerUnit] to at least 1 for the number of runs
    only: the duration of a window is [maxUnitTime / p.runsPerUnit], with the
    configured value.  With [runsPerUnit = 0] and [maxUnitTime = 1000] it is
    [Infinity], not [1000], and no window is ever closed; with
    [runsPerUnit = -2] it is negative, and a window of a unit with
    [maxUnitTime = 20] is closed after one call of 4 ms. *)
Theorem sampleRunTime_not_clamped :
  sampleRunTime (bench 10 1000 0 []) = PosInf /\
  sampleRunTime (bench 10 1000 (-2) []) = of_Z (-500) /\
  num_div (of_Z 1000) (Math_max (of_Z 0) (of_Z 1)) = of_Z 1000 /\
  snd (sim_run 100 (bench 10 20 0 [("a", busy 4)]) None at_1000) = Stuck /\
  recorded (w_log (fst (sim_run 100 (bench 10 20 (-2) [("a", busy 4)])
                          None at_1000))) =
    [ {| hits := 1; duration := 4 |}; {| hits := 1; duration := 4 |} ].
Proof.
  split; [reflexivity|].
  split; [apply number_eqb_eq; vm_compute; reflexivity|].
  split; [apply number_eqb_eq; vm_compute; reflexivity|].
  split; vm_compute; reflexivity.
Qed.

(** C2 fails: a function that carries a [prepare] property of its own is
    registered with that property as its [prepare], which [run] will call. *)
Lemma add_callable_keeps_own_prepare :
  exists p' u,
    add (new_Benchmark Sim) "u" tagged = inr p' /\
    units p' = [u] /\
    u_unit u = tagged /\
    u_prepare u = busy 1 /\
    u_prepare u <> VUndefined /\ u_prepare u <> VNull /\
    is_function (u_prepare u) = true.
Proof.
  eexists. eexists. split; [reflexivity|]. split; [reflexivity|].
  repeat split; discriminate.
Qed.

(** C3 fails: with no warmup run and two runs of 10 ms of a unit that sleeps
    4 ms, a timer calls [abort()] at 1015, in the second window.  The window
    ends without a sample, and the mean and the deviation of the one sample
    recorded are computed before the flag is checked. *)
Lemma abort_mid_sampling_still_aggregates :
  let o := sim_run 100 (bench 0 20 2 [("a", sleeper 4)]) None (abort_due 1015) in
  let s := {| hits := 3; duration := 12 |} in
  skipn 6 (w_log (fst o)) =
    [ EvSample s; EvCheck BetweenRuns false; EvCall Unit; EvAbort;
      EvStats 1 (mean_hits [s]) (dev_hits sim_sqrt [s] (mean_hits [s]));
      EvCheck AfterStats true ] /\
  snd o = Exc (Raised (abortError "abort() was called")).
Proof. split; vm_compute; reflexivity. Qed.





(** A run of one window, aborted by a timer before the window starts,
    reaches the aggregation with no sample. *)
Lemma no_samples_not_a_number_witness :
  In (EvStats 0 NaN NaN)
     (w_log (fst (sim_run 100 (bench 0 20 1 [("a", busy 4)]) None
                    (abort_due 1000)))) /\
  NaN = NaN.
Proof.
  assert (H : In (EvStats 0 NaN NaN)
                 (w_log (fst (sim_run 100 (bench 0 20 1 [("a", busy 4)]) None
                                (abort_due 1000)))))
    by find_event.
  split; [exact H|].
  exact (proj1 (no_samples_not_a_number clock sim_timers sim_sqrt 100 _ None
                  _ _ _ H)).
Defined.




(** The run aborted in its second window is rejected. *)
Lemma final_check_follows_stats_witness :
  let o := sim_run 100 (bench 0 20 2 [("a", sleeper 4)]) None
             (abort_due 1015) in
  w_log (fst o) =
    firstn 9 (w_log (fst o)) ++ EvAbort :: skipn 10 (w_log (fst o)) /\
  skipn 10 (w_log (fst o)) <> [] /\
  exists exn, snd o = Exc exn.
Proof.
  intro o.
  assert (H : w_log (fst o) =
              firstn 9 (w_log (fst o)) ++ EvAbort :: skipn 10 (w_log (fst o)))
    by (vm_compute; reflexivity).
  assert (H2 : skipn 10 (w_log (fst o)) <> []) by (vm_compute; discriminate).
  split; [exact H|]. split; [exact H2|].
  exact (proj2 (proj2 (proj2 (final_check_follows_stats clock sim_timers
                                sim_sqrt 100 _ None (abort_due 1015))))
           _ _ H H2).
Defined.



(** ** Registration and configuration *)

(** X1. [add] throws exactly when its second argument is [undefined] or
    [null], and then a [TypeError]; otherwise it appends one descriptor with the
    given name and no warmup sample after the units registered so far, and
    changes neither the flag nor a setting. *)
Theorem add_fails_only_on_nullish {E} (p : Benchmark E) (name : string)
    (options : value E) :
  match add p name options with
  | inl err =>
      (options = VUndefined \/ options = VNull) /\ err_name err = "TypeError"
  | inr p' =>
      options <> VUndefined /\ options <> VNull /\
      (exists u, units p' = units p ++ [u] /\ u_name u = name /\
                 u_warmup u = None) /\
      aborted p' = aborted p /\ warmupTime p' = warmupTime p /\
      maxUnitTime p' = maxUnitTime p /\ runsPerUnit p' = runsPerUnit p
  end.
Proof.
  unfold add.
  destruct options as [| |b|n|s|props|body props|settle]; cbn;
    repeat match goal with
           | |- context [if ?c then _ else _] => destruct c
           end;
    repeat split; try discriminate; eauto;
    eexists; cbn; repeat split.
Qed.

Lemma add_appends {E} (p p' : Benchmark E) (name : string) (options : value E) :
  add p name options = inr p' ->
  (exists u, units p' = units p ++ [u] /\ u_name u = name) /\
  aborted p' = aborted p /\ warmupTime p' = warmupTime p /\
  maxUnitTime p' = maxUnitTime p /\ runsPerUnit p' = runsPerUnit p.
Proof.
  unfold add.
  repeat match goal with
         | |- context [match ?c with inl _ => _ | inr _ => _ end] =>
             destruct c; try discriminate
         end.
  intro H. inversion H; subst. cbn. repeat split. eexists. split; reflexivity.
Qed.

(** X2. After a chain of calls that did not throw, each setting is the value
    its setter was last called with (its former value when the setter was not
    called), whatever was called in between; the flag is set when it was set
    or [abort] was called; and the units are those registered before followed
    by one unit per call of [add], in the order of the calls. *)
Theorem chain_settings {E} (ops : list (Op E)) :
  forall (p p' : Benchmark E),
    chain p ops = inr p' ->
    getWarmupTime p' = last_set picks_warmupTime (warmupTime p) ops /\
    getMaxUnitTime p' = last_set picks_maxUnitTime (maxUnitTime p) ops /\
    getRunsPerUnit p' = last_set picks_runsPerUnit (runsPerUnit p) ops /\
    aborted p' = aborted p || existsb is_OpAbort ops /\
    map u_name (units p') = map u_name (units p) ++ added_names ops.
Proof.
  induction ops as [|op ops IH]; intros p p' H; simpl in H.
  - inversion H; subst. simpl. rewrite orb_false_r, app_nil_r. auto.
  - destruct (apply_op p op) as [err|p1] eqn:Hop; [discriminate|].
    destruct (IH p1 p' H) as (Hw & Hm & Hr & Ha & Hu).
    rewrite Hw, Hm, Hr, Ha, Hu. clear IH H Hw Hm Hr Ha Hu.
    destruct op as [name options| |ms|ms|n]; simpl in Hop.
    + destruct (add_appends _ _ _ _ Hop) as ((u & Hu & Hn) & Ha & Hw & Hm & Hr).
      simpl. rewrite Ha, Hw, Hm, Hr, Hu, map_app, <- app_assoc. simpl.
      rewrite Hn. auto.
    + inversion Hop; subst. simpl. rewrite orb_true_r. auto.
    + inversion Hop; subst. simpl. auto.
    + inversion Hop; subst. simpl. auto.
    + inversion Hop; subst. simpl. auto.
Qed.


(** ** What a unit that is run to its end leaves *)

Section UnitEnds.

Context {E : Type}.
Variable Date_now : E -> Z.
Variable timers : E -> bool * E.
Variable sqrtQ : Qc -> Qc.
Variable fuel : nat.
Variable p : Benchmark E.
Variable onCycle : option (OnCycleFn E).

(** The sampling part ends with a value only when the unit is a function. *)
Lemma sample_unit_val unit (w w' : World E) recd :
  sample_unit Date_now timers fuel p unit w = (w', Val recd) ->
  is_function (u_unit unit) = true.
Proof.
  unfold sample_unit, bind.
  match goal with
  | |- (match ?x with _ => _ end) = _ -> _ =>
      destruct x as [w1 [r1|e1|]]; try discriminate
  end.
  destruct (u_unit unit); cbn; try discriminate. reflexivity.
Qed.

(** The report part ends with a value only by appending the result built
    from the samples left by the shift. *)
Lemma report_unit_val unit rs recd (w w' : World E) rs' :
  report_unit sqrtQ p onCycle unit rs recd w = (w', Val rs') ->
  rs' = rs ++ [make_results sqrtQ p unit
                 (fst (shift_warmup (hasWarmupRun p) (u_warmup unit) recd))
                 (snd (shift_warmup (hasWarmupRun p) (u_warmup unit) recd))].
Proof.
  unfold report_unit.
  destruct (shift_warmup (hasWarmupRun p) (u_warmup unit) recd) as [wu ss].
  unfold bind, emit, checkpoint; cbn.
  destruct (w_aborted w); cbn; [discriminate|].
  destruct onCycle as [f|]; cbn.
  - unfold perform; cbn.
    destruct (f _ (w_env w)) as [[ab [v|v]] e']; cbn; intro H; inversion H.
    reflexivity.
  - intro H; inversion H. reflexivity.
Qed.

Lemma run_unit_val unit rs (w w' : World E) rs' :
  run_unit Date_now timers sqrtQ fuel p onCycle unit rs w = (w', Val rs') ->
  is_function (u_unit unit) = true /\
  exists recd,
    rs' = rs ++ [make_results sqrtQ p unit
                   (fst (shift_warmup (hasWarmupRun p) (u_warmup unit) recd))
                   (snd (shift_warmup (hasWarmupRun p) (u_warmup unit) recd))].
Proof.
  unfold run_unit. unfold bind at 1, checkpoint.
  destruct (w_aborted w); [discriminate|].
  unfold bind.
  destruct (sample_unit Date_now timers fuel p unit _) as [w1 [recd|e1|]] eqn:Hs;
    try discriminate.
  intro H. split; [eapply sample_unit_val; exact Hs|].
  exists recd. eapply report_unit_val; exact H.
Qed.

Lemma run_units_val us : forall rs (w w' : World E) rs',
  run_units Date_now timers sqrtQ fuel p onCycle us rs w = (w', Val rs') ->
  Forall (fun u => is_function (u_unit u) = true) us /\
  map name rs' = map name rs ++ map u_name us /\
  (hasWarmupRun p = false ->
   map warmup rs' = map warmup rs ++ map u_warmup us).
Proof.
  induction us as [|unit us IH]; intros rs w w' rs' H; cbn [run_units] in H.
  - inversion H; subst. simpl. rewrite !app_nil_r. auto.
  - unfold bind in H.
    destruct (run_unit Date_now timers sqrtQ fuel p onCycle unit rs w)
      as [w1 [rs1|e1|]] eqn:Hu; try discriminate.
    destruct (run_unit_val _ _ _ _ _ Hu) as [Hf (recd & ->)].
    destruct (IH _ _ _ _ H) as (Hall & Hn & Hw).
    split; [constructor; assumption|]. split.
    + rewrite Hn, map_app, <- app_assoc. reflexivity.
    + intro HW. rewrite (Hw HW), map_app, <- app_assoc. simpl.
      rewrite HW. destruct recd; reflexivity.
Qed.

Variable e : E.


(** X5. A run that is fulfilled has one result for each registered unit, in
    the order of registration and under the name of the unit. *)
Theorem results_in_registration_order (rs : list BenchmarkResults) :
  snd (run Date_now timers sqrtQ fuel p onCycle e) = Val rs ->
  map name rs = map u_name (units p).
Proof.
  unfold run. intro H.
  destruct (run_units Date_now timers sqrtQ fuel p onCycle (units p) [] _)
    as [w' r] eqn:Hr.
  simpl in H. subst r. exact (proj1 (proj2 (run_units_val _ _ _ _ _ Hr))).
Qed.

(** X6. Without a warmup run ([warmupTime <= 0]) no sample is taken off: a
    run that is fulfilled reports every sample it recorded, and the warmup sample
    of a result is the one its unit already carried, none for a unit
    registered by [add] and not run before. *)
Theorem no_warmup_run_reports_all (rs : list BenchmarkResults) :
  snd (run Date_now timers sqrtQ fuel p onCycle e) = Val rs ->
  hasWarmupRun p = false ->
  recorded (w_log (fst (run Date_now timers sqrtQ fuel p onCycle e))) =
    flat_map samples rs /\
  map warmup rs = map u_warmup (units p).
Proof.
  intros H HW. split.
  - destruct (run_summary Date_now timers sqrtQ fuel p onCycle e)
      as (_ & _ & Hval).
    destruct (Hval rs H) as (_ & _ & Hrec & _).
    rewrite Hrec. unfold all_recorded. rewrite HW. reflexivity.
  - unfold run in H.
    destruct (run_units Date_now timers sqrtQ fuel p onCycle (units p) [] _)
      as [w' r] eqn:Hr.
    simpl in H. subst r.
    exact (proj2 (proj2 (run_units_val _ _ _ _ _ Hr)) HW).
Qed.

End UnitEnds.

(** ** What [run] reads of the benchmark *)

Lemma bind_ext {E A B} (m m' : M E A) (f f' : A -> M E B) :
  (forall w, m w = m' w) -> (forall a w, f a w = f' a w) ->
  forall w, bind m f w = bind m' f' w.
Proof.
  intros Hm Hf w. unfold bind. rewrite Hm.
  destruct (m' w) as [w1 [a|e|]]; auto.
Qed.

Section SameSettings.

Context {E : Type}.
Variable Date_now : E -> Z.
Variable timers : E -> bool * E.
Variable sqrtQ : Qc -> Qc.
Variable fuel : nat.
Variables p p' : Benchmark E.
Variable onCycle : option (OnCycleFn E).

Hypothesis same_warmup : hasWarmupRun p = hasWarmupRun p'.
Hypothesis same_maxUnitTime : maxUnitTime p = maxUnitTime p'.
Hypothesis same_runsPerUnit : runsPerUnit p = runsPerUnit p'.

Lemma same_sampleRunTime : sampleRunTime p = sampleRunTime p'.
Proof.
  unfold sampleRunTime. rewrite same_maxUnitTime, same_runsPerUnit.
  reflexivity.
Qed.

Lemma same_actualRunCount : actualRunCount p = actualRunCount p'.
Proof.
  unfold actualRunCount. rewrite same_warmup, same_runsPerUnit. reflexivity.
Qed.

Lemma same_for_runs unitFn fnIsPromise bound : forall run samples w,
  for_runs Date_now timers fuel p unitFn fnIsPromise bound run samples w =
  for_runs Date_now timers fuel p' unitFn fnIsPromise bound run samples w.
Proof.
  induction bound as [|bound IH]; intros run samples w;
    cbn [for_runs]; rewrite same_actualRunCount; [reflexivity|].
  destruct (num_lt (of_Z run) (actualRunCount p')); [|reflexivity].
  apply bind_ext; [reflexivity|]. intros _ w1.
  apply bind_ext; [reflexivity|]. intros _ w2.
  apply bind_ext.
  - intro w3. unfold doRun. rewrite same_sampleRunTime. reflexivity.
  - intros samples' w3. apply IH.
Qed.

Lemma same_sample_unit unit w :
  sample_unit Date_now timers fuel p unit w =
  sample_unit Date_now timers fuel p' unit w.
Proof.
  unfold sample_unit. rewrite same_actualRunCount.
  apply bind_ext; [reflexivity|]. intros _ w1.
  apply bind_ext; [reflexivity|]. intros probe w2.
  apply bind_ext; [|reflexivity]. intro w3. apply same_for_runs.
Qed.

Lemma same_report_unit unit rs recd w :
  report_unit sqrtQ p onCycle unit rs recd w =
  report_unit sqrtQ p' onCycle unit rs recd w.
Proof.
  unfold report_unit, make_results.
  rewrite same_warmup, same_sampleRunTime. reflexivity.
Qed.

Lemma same_run_units us : forall rs w,
  run_units Date_now timers sqrtQ fuel p onCycle us rs w =
  run_units Date_now timers sqrtQ fuel p' onCycle us rs w.
Proof.
  induction us as [|unit us IH]; intros rs w; [reflexivity|].
  cbn [run_units]. apply bind_ext; [|intros; apply IH].
  intro w0. unfold run_unit.
  apply bind_ext; [reflexivity|]. intros _ w1.
  apply bind_ext; [apply same_sample_unit|].
  intros recd w2. apply same_report_unit.
Qed.

End SameSettings.

Section WhatRunReads.

Context {E : Type}.
Variable Date_now : E -> Z.
Variable timers : E -> bool * E.
Variable sqrtQ : Qc -> Qc.
Variable fuel : nat.
Variable p : Benchmark E.
Variable onCycle : option (OnCycleFn E).
Variable e : E.

(** X7. [run] resets the flag: a call of [abort()] made before [run] changes
    nothing of the run.  When [run] is left, the flag is set exactly when
    [abort()] was called during that run. *)
Theorem run_forgets_earlier_abort :
  run Date_now timers sqrtQ fuel (abort p) onCycle e =
    run Date_now timers sqrtQ fuel p onCycle e /\
  w_aborted (fst (run Date_now timers sqrtQ fuel p onCycle e)) =
    existsb is_abort (w_log (fst (run Date_now timers sqrtQ fuel p onCycle e))).
Proof.
  split.
  - unfold run. apply same_run_units; reflexivity.
  - destruct (run_summary Date_now timers sqrtQ fuel p onCycle e)
      as ((Hf & _) & _).
    exact Hf.
Qed.

(** X8. [warmupTime] only switches the warmup run on: the warmup window lasts
    as long as every other window, and two positive values of [warmupTime] give
    the same run. *)
Theorem warmup_amount_is_not_used (a b : Qc) :
  Qc_ltb (Qz 0) a = true -> Qc_ltb (Qz 0) b = true ->
  run Date_now timers sqrtQ fuel (setWarmupTime p a) onCycle e =
  run Date_now timers sqrtQ fuel (setWarmupTime p b) onCycle e.
Proof.
  intros Ha Hb. unfold run. apply same_run_units; try reflexivity.
  unfold hasWarmupRun, num_gt, num_lt, of_Z. simpl. rewrite Ha, Hb.
  reflexivity.
Qed.

End WhatRunReads.

(** ** One window *)

Lemma window_not_yet_closed (startTime a b k : Z) (srt : number) :
  num_ge (of_Z a) (num_add (of_Z startTime) srt) = false ->
  num_ge (of_Z b) (num_add (of_Z startTime) srt) = true ->
  k <= a - startTime ->
  num_lt (of_Z k) srt = true.
Proof.
  unfold num_ge. destruct srt as [q| | |]; simpl; try discriminate.
  intros Ha _ Hk. apply Qc_ltb_iff.
  assert (Ha' : Qc_ltb (Qz a) (Qz startTime + q) = true).
  { unfold Qc_ltb, Qc_leb in *. rewrite Ha. reflexivity. }
  apply Qc_ltb_iff in Ha'. rewrite Qc_plus_this in Ha'.
  rewrite !Qz_this in *. rewrite Zle_Qle in Hk.
  unfold Z.sub in Hk. rewrite inject_Z_plus, inject_Z_opp in Hk. lra.
Qed.

Section Window.

Context {E : Type}.
Variable Date_now : E -> Z.
Variable p : Benchmark E.
Variable unitFn : value E.
Variable fnIsPromise : bool.

Lemma doRun_loop_step calls startTime endTime hits samples (w : World E) :
  w_aborted w = false ->
  doRun_loop Date_now unitFn fnIsPromise (S calls) startTime endTime hits
    samples w =
  bind (call_unit unitFn fnIsPromise)
    (fun _ =>
       bind (now Date_now)
         (fun now' =>
            if num_ge (of_Z now') endTime then
              bind (emit (EvSample {| hits := hits + 1;
                                      duration := now' - startTime |}))
                (fun _ => ret (samples ++ [ {| hits := hits + 1;
                                               duration := now' - startTime |} ]))
            else doRun_loop Date_now unitFn fnIsPromise calls startTime
                   endTime (hits + 1) samples)) w.
Proof.
  intro Hw. cbn [doRun_loop]. rewrite Hw. unfold call_unit, bind.
  destruct (call Unit unitFn w) as [w1 [res|e|]]; reflexivity.
Qed.

Variable T : Z.

Lemma doRun_loop_hits calls :
  takes Date_now T unitFn fnIsPromise ->
  forall startTime h samples (w w' : World E) samples',
    0 <= h ->
    h * T <= Date_now (w_env w) - startTime ->
    h = 0 \/
      num_ge (of_Z (Date_now (w_env w)))
             (num_add (of_Z startTime) (sampleRunTime p)) = false ->
    doRun_loop Date_now unitFn fnIsPromise calls startTime
      (num_add (of_Z startTime) (sampleRunTime p)) h samples w =
      (w', Val samples') ->
    samples' = samples \/
    exists s,
      samples' = samples ++ [s] /\
      hits s * T <= duration s /\
      (hits s = 1 \/
       num_lt (of_Z ((hits s - 1) * T)) (sampleRunTime p) = true).
Proof.
  intro Htakes.
  induction calls as [|calls IH];
    intros startTime h samples w w' samples' Hh Hel Hprev H.
  - simpl in H. destruct (w_aborted w); inversion H; auto.
  - destruct (w_aborted w) eqn:Hw.
    + simpl in H. rewrite Hw in H. inversion H; auto.
    + rewrite (doRun_loop_step _ _ _ _ _ _ Hw) in H. unfold bind at 1 in H.
      destruct (call_unit unitFn fnIsPromise w) as [w1 [r|e|]] eqn:Hc;
        try discriminate.
      apply Htakes in Hc. unfold bind at 1, now in H.
      destruct (num_ge (of_Z (Date_now (w_env w1))) _) eqn:Hge.
      * cbn in H. inversion H; subst. right. eexists. split; [reflexivity|].
        cbn [hits duration]. split; [nia|].
        destruct Hprev as [->|Hprev]; [left; reflexivity|]. right.
        replace (h + 1 - 1) with h by lia.
        eapply window_not_yet_closed; eauto.
      * eapply IH; [| | |exact H]; [lia | nia | right; exact Hge].
Qed.

Variable fuel : nat.

(** X9. When every completed call of the unit function takes at least [T]
    milliseconds, a window that is closed has a sample with
    [hits * T <= duration], and it was closed by the first call after which
    the nominal duration had elapsed: [hits = 1], or
    [(hits - 1) * T < sampleRunTime]. *)
Theorem window_hits_bounded (samples samples' : list Sample) (w w' : World E) :
  takes Date_now T unitFn fnIsPromise ->
  doRun Date_now fuel p unitFn fnIsPromise samples w = (w', Val samples') ->
  samples' = samples \/
  exists s,
    samples' = samples ++ [s] /\
    hits s * T <= duration s /\
    (hits s = 1 \/ num_lt (of_Z ((hits s - 1) * T)) (sampleRunTime p) = true).
Proof.
  intros Htakes H. unfold doRun in H. unfold bind at 1, now in H.
  eapply doRun_loop_hits; [exact Htakes | | | | exact H]; [lia | lia | auto].
Qed.

Lemma doRun_loop_closes (q : Qc) calls :
  steady Date_now T unitFn fnIsPromise ->
  forall startTime hits samples (w : World E),
    w_aborted w = false ->
    calls <> O ->
    (q <= inject_Z (Date_now (w_env w) - startTime + Z.of_nat calls * T))%Q ->
    exists w' s,
      doRun_loop Date_now unitFn fnIsPromise calls startTime
        (num_add (of_Z startTime) (Fin q)) hits samples w =
        (w', Val (samples ++ [s])) /\
      w_aborted w' = false.
Proof.
  intro Hst. induction calls as [|calls IH];
    intros startTime hits samples w Hw Hc Hq; [congruence|].
  rewrite (doRun_loop_step _ _ _ _ _ _ Hw). unfold bind at 1.
  destruct (Hst w Hw) as (w1 & r & Hcall & Hw1 & Hclock). rewrite Hcall.
  unfold bind at 1, now.
  destruct (num_ge (of_Z (Date_now (w_env w1))) _) eqn:Hge.
  - cbn. eexists. eexists. split; [reflexivity | exact Hw1].
  - assert (Hlt : (inject_Z (Date_now (w_env w1) - startTime) < q)%Q).
    { unfold num_ge in Hge. cbn in Hge.
      assert (Hlt : Qc_ltb (Qz (Date_now (w_env w1))) (Qz startTime + q) = true).
      { unfold Qc_ltb, Qc_leb in *. rewrite Hge. reflexivity. }
      apply Qc_ltb_iff in Hlt. rewrite Qc_plus_this, !Qz_this in Hlt.
      unfold Z.sub. rewrite inject_Z_plus, inject_Z_opp. lra. }
    apply IH; [exact Hw1 | |].
    + intros ->. 
      assert (Hle : (inject_Z (Date_now (w_env w) - startTime + Z.of_nat 1 * T)
                     <= inject_Z (Date_now (w_env w1) - startTime))%Q)
        by (rewrite <- Zle_Qle; lia).
      lra.
    + eapply Qle_trans; [exact Hq|]. rewrite <- Zle_Qle. lia.
Qed.

(** X10. When every call of the unit function completes, calls no [abort()]
    and takes at least [T] milliseconds, a window of a finite duration is
    closed within any bound [fuel >= 1] on the calls with
    [sampleRunTime <= fuel * T]: [doRun] records exactly one sample and
    leaves the flag unset. *)
Theorem window_closes (q : Qc) (samples : list Sample) (w : World E) :
  steady Date_now T unitFn fnIsPromise ->
  sampleRunTime p = Fin q ->
  fuel <> O ->
  (q <= inject_Z (Z.of_nat fuel * T))%Q ->
  w_aborted w = false ->
  exists w' s,
    doRun Date_now fuel p unitFn fnIsPromise samples w =
      (w', Val (samples ++ [s])) /\
    w_aborted w' = false.
Proof.
  intros Hst Hq Hf Hle Hw. unfold doRun. unfold bind at 1, now. rewrite Hq.
  apply doRun_loop_closes; auto.
  eapply Qle_trans; [exact Hle|]. rewrite <- Zle_Qle. lia.
Qed.

End Window.

(** ** The rates that are reported *)

Lemma recorded_in (l : list Event) (s : Sample) :
  In s (recorded l) -> In (EvSample s) l.
Proof.
  induction l as [|ev l IH]; simpl; [tauto|].
  destruct ev; simpl; intro H; auto.
  destruct H as [->|H]; auto.
Qed.

Lemma sum_hits_ge (ss : list Sample) :
  Forall (fun s => 1 <= hits s) ss -> Z.of_nat (List.length ss) <= sum_hits ss.
Proof.
  induction 1 as [|s ss Hs _ IH]; [reflexivity|].
  unfold sum_hits in *. cbn [fold_right List.length]. lia.
Qed.

(** The mean of hits that are all at least 1 is at least 1. *)
Lemma mean_ge_1 (ss : list Sample) :
  ss <> [] -> Forall (fun s => 1 <= hits s) ss -> (1 <= mean ss)%Q.
Proof.
  intros Hne Hall. unfold mean. rewrite Qc_div_this, !Qz_this.
  apply Qle_shift_div_l.
  - change 0%Q with (inject_Z 0). rewrite <- Zlt_Qlt.
    destruct ss; [congruence | simpl; lia].
  - rewrite Qmult_1_l. rewrite <- Zle_Qle. apply sum_hits_ge. exact Hall.
Qed.

Lemma Qc_is0_false_pos (m : Qc) : (0 < m)%Q -> Qc_is0 m = false.
Proof.
  intro H. unfold Qc_is0. destruct (Qc_eq_bool m (Qz 0)) eqn:Heq; [|reflexivity].
  apply Qc_eq_bool_correct in Heq. subst m. rewrite Qz_this in H.
  exfalso. revert H. apply Qlt_irrefl.
Qed.

(** The rate of a positive count is a number, for every duration of a window
    that a sample can have reached. *)
Lemma rate_is_a_number (srt : number) (d : Z) (m : Qc) :
  num_ge (of_Z d) srt = true -> (0 < m)%Q -> rate srt m <> NaN.
Proof.
  intros Hge Hm. assert (H0 := Qc_is0_false_pos m Hm).
  unfold rate, num_ge in *.
  destruct srt as [q| | |]; simpl in Hge; try discriminate.
  - unfold num_div, of_Z. destruct (Qc_is0 q).
    + change (inf_times true (Qz 1000)) with PosInf.
      unfold num_mul, inf_times. rewrite H0.
      destruct (Bool.eqb true (Qc_ltb (Qz 0) m)); discriminate.
    + discriminate.
Qed.

Section Rates.

Context {E : Type}.
Variable Date_now : E -> Z.
Variable timers : E -> bool * E.
Variable sqrtQ : Qc -> Qc.
Variable fuel : nat.
Variable p : Benchmark E.
Variable onCycle : option (OnCycleFn E).
Variable e : E.

(** The samples of a result of a fulfilled run were all recorded in that
    run: each has at least one hit and lasted a window. *)
Lemma fulfilled_samples_good (rs : list BenchmarkResults) r s :
  snd (run Date_now timers sqrtQ fuel p onCycle e) = Val rs ->
  In r rs -> In s (samples r) -> good_sample p s.
Proof.
  intros H Hr Hs.
  destruct (run_summary Date_now timers sqrtQ fuel p onCycle e)
    as ((_ & Hev & _) & _ & Hval).
  destruct (Hval rs H) as (_ & _ & Hrec & _).
  rewrite Forall_forall in Hev.
  apply (Hev (EvSample s)). apply recorded_in. rewrite Hrec.
  apply in_flat_map. exists r. split; [exact Hr|].
  unfold all_recorded, with_warmup.
  destruct (hasWarmupRun p); [|exact Hs].
  destruct (warmup r); [right|]; exact Hs.
Qed.

(** A result of a fulfilled run has samples, and its average is the rate of
    their mean. *)
Lemma fulfilled_totals (rs : list BenchmarkResults) r :
  snd (run Date_now timers sqrtQ fuel p onCycle e) = Val rs ->
  In r rs ->
  (1 <= List.length (samples r))%nat /\
  runs (totals r) = List.length (samples r) /\
  avg (totals r) = rate (sampleRunTime p) (mean (samples r)) /\
  stdDev (totals r) =
    rate (sampleRunTime p) (population_stddev sqrtQ (samples r)).
Proof.
  intros H Hr.
  destruct (run_summary Date_now timers sqrtQ fuel p onCycle e)
    as ((_ & Hev & _) & _ & Hval).
  destruct (Hval rs H) as (Hpu & _ & _ & Hall & _).
  rewrite Forall_forall in Hall. destruct (Hall r Hr) as [Hlen _].
  assert (Hpos : (1 <= List.length (samples r))%nat).
  { rewrite Hlen. unfold clamped_runs.
    assert (H1 := clamped_ge_1 (runsPerUnit p)). lia. }
  assert (Hne : samples r <> []).
  { intro Hnil. rewrite Hnil in Hpos. simpl in Hpos. lia. }
  assert (Hin : In (EvPush r) (w_log (fst (run Date_now timers sqrtQ fuel p
                                             onCycle e))))
    by (apply pushed_in; rewrite Hpu; exact Hr).
  rewrite Forall_forall in Hev. destruct (Hev _ Hin) as [Ht _].
  rewrite Ht. unfold totals_of. cbn [runs avg stdDev].
  rewrite (mean_hits_mean _ Hne), (dev_hits_stddev sqrtQ _ Hne).
  repeat split. exact Hpos.
Qed.



End Rates.

(** ** The calls and the samples, in order *)

Lemma milestones_app (l1 l2 : list Event) :
  milestones (l1 ++ l2) = milestones l1 ++ milestones l2.
Proof. apply filter_app. Qed.

Section Order.

Context {E : Type}.
Variable Date_now : E -> Z.
Variable timers : E -> bool * E.

Lemma yields_conseq {A} (m : M E A) (P Q : A -> list Event -> Prop) :
  yields m P -> (forall a ms, P a ms -> Q a ms) -> yields m Q.
Proof.
  intros Hm HPQ w w' a H Hw'.
  destruct (Hm w w' a H Hw') as (Hw & ext & Hl & HP).
  split; [exact Hw|]. exists ext. auto.
Qed.

Lemma yields_bind {A B} (m : M E A) (k : A -> M E B) P Q :
  yields m P -> (forall a, yields (k a) (Q a)) ->
  yields (bind m k)
    (fun b ms => exists a ms1 ms2, ms = ms1 ++ ms2 /\ P a ms1 /\ Q a b ms2).
Proof.
  intros Hm Hk w w' b H Hw'. unfold bind in H.
  destruct (m w) as [w1 [a| |]] eqn:Hmw; try discriminate.
  destruct (Hk a w1 w' b H Hw') as (Hw1 & ext2 & Hl2 & HQ).
  destruct (Hm w w1 a Hmw Hw1) as (Hw & ext1 & Hl1 & HP).
  split; [exact Hw|]. exists (ext1 ++ ext2). split.
  - rewrite Hl2, Hl1, app_assoc. reflexivity.
  - rewrite milestones_app. eauto 8.
Qed.

Lemma yields_ret {A} (a : A) :
  yields (E := E) (ret a) (fun b ms => b = a /\ ms = []).
Proof.
  intros w w' b H Hw'. inversion H; subst. split; [exact Hw'|].
  exists []. rewrite app_nil_r. auto.
Qed.

Lemma yields_perform who (body : Body E) : yields (perform who body) mute.
Proof.
  intros w w' b H Hw'. unfold perform in H.
  destruct (body (w_env w)) as [[ab [v|v]] e']; inversion H; subst.
  unfold world_step in *. cbn in *.
  apply orb_false_iff in Hw'. destruct Hw' as [Hw ->].
  split; [exact Hw|]. exists []. split; reflexivity.
Qed.

Lemma yields_call who (f : value E) :
  yields (call who f) (fun _ ms => ms = [EvCall who]).
Proof.
  intros w w' b H Hw'. destruct f; try discriminate.
  cbn [call] in H. unfold bind, emit in H.
  match type of H with perform _ _ ?w0 = _ =>
    destruct (yields_perform _ _ w0 w' b H Hw') as (Hw & ext & Hl & Hm)
  end.
  cbn in Hw, Hl. split; [exact Hw|].
  exists (EvCall who :: ext). split.
  - rewrite Hl, <- app_assoc. reflexivity.
  - unfold mute in Hm. unfold milestones in *. cbn. rewrite Hm. reflexivity.
Qed.

Lemma yields_await who (v : value E) : yields (await who v) mute.
Proof.
  assert (Hret : yields (E := E) (ret v) mute)
    by (eapply yields_conseq; [apply yields_ret | intros a ms [_ H]; exact H]).
  destruct v; cbn [await]; try exact Hret;
    try apply yields_perform;
    destruct (lookup "then" _); try exact Hret; apply yields_perform.
Qed.

Lemma yields_checkpoint c : yields (E := E) (checkpoint c) mute.
Proof.
  intros w w' b H Hw'. unfold checkpoint in H.
  destruct (w_aborted w) eqn:Hw; inversion H; subst.
  split; [reflexivity|]. eexists. split; reflexivity.
Qed.

Lemma yields_setTimeout0 : yields (setTimeout0 timers) mute.
Proof.
  intros w w' b H Hw'. unfold setTimeout0 in H.
  destruct (timers (w_env w)) as [ab e']. inversion H; subst.
  unfold world_step in *. cbn in *.
  apply orb_false_iff in Hw'. destruct Hw' as [Hw ->].
  split; [exact Hw|]. exists []. split; reflexivity.
Qed.

Lemma yields_now : yields (now Date_now) mute.
Proof.
  intros w w' b H Hw'. inversion H; subst. split; [exact Hw'|].
  exists []. rewrite app_nil_r. split; reflexivity.
Qed.

Lemma yields_sample (s : Sample) :
  yields (E := E) (emit (EvSample s)) (fun _ ms => ms = [EvSample s]).
Proof.
  intros w w' b H Hw'. inversion H; subst. cbn in *.
  split; [exact Hw'|]. eexists. split; reflexivity.
Qed.

Lemma yields_call_unit (unitFn : value E) fnIsPromise :
  yields (call_unit unitFn fnIsPromise) (fun _ ms => ms = [EvCall Unit]).
Proof.
  unfold call_unit. eapply yields_conseq.
  - apply yields_bind; [apply yields_call|].
    intro res. instantiate (1 := fun _ => mute).
    destruct fnIsPromise; [apply yields_await|].
    eapply yields_conseq; [apply yields_ret | intros a ms [_ H]; exact H].
  - cbn. intros _ ms (a & ms1 & ms2 & -> & -> & ->). reflexivity.
Qed.

Variable fuel : nat.
Variable p : Benchmark E.

Section OneUnit.

Variable unitFn : value E.
Variable fnIsPromise : bool.

(** A window that closes while the flag is unset appends one sample, after
    as many calls of the unit function as the sample has hits. *)
Lemma yields_doRun_loop calls : forall startTime endTime h samples,
  0 <= h ->
  yields (doRun_loop Date_now unitFn fnIsPromise calls startTime endTime h
            samples)
    (fun samples' ms =>
       exists s, samples' = samples ++ [s] /\ h < hits s /\
                 ms = repeat (EvCall Unit) (Z.to_nat (hits s - h)) ++
                      [EvSample s]).
Proof.
  induction calls as [|calls IH]; intros startTime endTime h samples Hh
    w w' a H Hw'.
  - cbn in H. destruct (w_aborted w) eqn:Hw; [|discriminate].
    inversion H; subst. congruence.
  - destruct (w_aborted w) eqn:Hw.
    { cbn in H. rewrite Hw in H. inversion H; subst. congruence. }
    rewrite doRun_loop_step in H by exact Hw.
    revert w w' a H Hw' Hw. 
    match goal with |- forall w w' a, ?m w = _ -> _ -> _ -> _ /\ ?C =>
      assert (Hy : yields m
        (fun samples' ms =>
           exists s, samples' = samples ++ [s] /\ h < hits s /\
                 ms = repeat (EvCall Unit) (Z.to_nat (hits s - h)) ++
                      [EvSample s]))
    end.
    2: { intros w w' a H Hw' _. destruct (Hy w w' a H Hw') as [_ Hx].
         split; [reflexivity | exact Hx]. }
    eapply yields_conseq.
    + apply yields_bind; [apply yields_call_unit|]. intros ?.
      apply yields_bind; [apply yields_now|]. intro now'.
      instantiate (1 := fun _ samples' ms =>
        exists s, samples' = samples ++ [s] /\ h + 1 <= hits s /\
                 ms = repeat (EvCall Unit) (Z.to_nat (hits s - (h + 1))) ++
                      [EvSample s]).
      destruct (num_ge (of_Z now') endTime).
      * eapply yields_conseq.
        { apply yields_bind; [apply yields_sample|]. intros ?.
          apply yields_ret. }
        cbn. intros ss ms (_ & ms1 & ms2 & -> & -> & -> & ->).
        eexists. split; [reflexivity|]. cbn [hits]. split; [lia|].
        replace (h + 1 - (h + 1)) with 0 by lia. reflexivity.
      * eapply yields_conseq; [apply IH; lia|].
        cbn. intros ss ms (s & -> & Hlt & ->). exists s.
        split; [reflexivity|]. split; [lia|]. reflexivity.
    + cbn. intros ss ms (_ & ms1 & ms2 & -> & -> & _ & ms3 & ms4 & -> & -> &
                           s & -> & Hle & ->).
      exists s. split; [reflexivity|]. split; [lia|].
      replace (Z.to_nat (hits s - h)) with (S (Z.to_nat (hits s - (h + 1))))
        by lia.
      reflexivity.
Qed.

Lemma yields_doRun samples :
  yields (doRun Date_now fuel p unitFn fnIsPromise samples)
    (fun samples' ms =>
       exists s, samples' = samples ++ [s] /\ ms = window_events s).
Proof.
  unfold doRun. eapply yields_conseq.
  - apply yields_bind; [apply yields_now|]. intro startTime.
    apply yields_doRun_loop. lia.
  - cbn. intros ss ms (_ & ms1 & ms2 & -> & -> & s & -> & _ & ->).
    exists s. split; [reflexivity|]. unfold window_events.
    rewrite Z.sub_0_r. reflexivity.
Qed.

Lemma yields_for_runs bound : forall run samples,
  yields (for_runs Date_now timers fuel p unitFn fnIsPromise bound run
            samples)
    (fun samples' ms =>
       exists new, samples' = samples ++ new /\
                   ms = flat_map window_events new).
Proof.
  induction bound as [|bound IH]; intros run samples; cbn [for_runs];
    destruct (num_lt (of_Z run) (actualRunCount p)).
  - intros w w' a H. discriminate.
  - eapply yields_conseq; [apply yields_ret|].
    intros a ms [-> ->]. exists []. rewrite app_nil_r. auto.
  - eapply yields_conseq.
    + apply yields_bind; [apply yields_checkpoint|]. intros ?.
      apply yields_bind; [apply yields_setTimeout0|]. intros ?.
      apply yields_bind; [apply yields_doRun|]. intro samples'.
      apply IH.
    + cbn. intros ss ms (_ & ms1 & ms2 & -> & -> & _ & ms3 & ms4 & -> & -> &
                           s1 & ms5 & ms6 & -> & (s & -> & ->) &
                           new & -> & ->).
      exists (s :: new). rewrite <- app_assoc. split; [reflexivity|].
      cbn [flat_map app]. reflexivity.
  - eapply yields_conseq; [apply yields_ret|].
    intros a ms [-> ->]. exists []. rewrite app_nil_r. auto.
Qed.

End OneUnit.

Lemma yields_optional who (f : value E) :
  yields (if is_function f
          then bind (call who f) (fun r => await who r)
          else ret VUndefined)
    (fun _ ms => ms = call_if_function who f).
Proof.
  unfold call_if_function. destruct (is_function f).
  - eapply yields_conseq.
    + apply yields_bind; [apply yields_call|]. intro r. apply yields_await.
    + cbn. intros _ ms (a & ms1 & ms2 & -> & -> & ->). reflexivity.
  - eapply yields_conseq; [apply yields_ret|]. intros a ms [_ ->]. reflexivity.
Qed.

(** The sampling part of a unit that ends while the flag is unset. *)
Lemma yields_sample_unit unit :
  yields (sample_unit Date_now timers fuel p unit)
    (fun ss ms => ms = unit_events unit ss).
Proof.
  unfold sample_unit. eapply yields_conseq.
  - apply yields_bind; [apply yields_optional|]. intros ?.
    apply yields_bind; [apply yields_call|]. intro probe.
    apply yields_bind; [apply yields_for_runs|]. intro ss.
    apply yields_bind; [apply yields_optional|]. intros ?.
    apply yields_ret.
  - cbn. intros ss ms (_ & ms1 & ms2 & -> & -> & probe & ms3 & ms4 & -> & -> &
                         ss' & ms5 & ms6 & -> & (new & -> & ->) &
                         _ & ms7 & ms8 & -> & -> & -> & ->).
    unfold unit_events. cbn. rewrite app_nil_r. reflexivity.
Qed.

Variable sqrtQ : Qc -> Qc.
Variable onCycle : option (OnCycleFn E).

(** The report part ends with a value only when the flag was unset at its
    check, and it appends no call and no sample. *)
Lemma report_unit_mute unit rs recd (w w' : World E) rs' :
  report_unit sqrtQ p onCycle unit rs recd w = (w', Val rs') ->
  w_aborted w = false /\
  exists ext, w_log w' = w_log w ++ ext /\ milestones ext = [].
Proof.
  unfold report_unit.
  destruct (shift_warmup (hasWarmupRun p) (u_warmup unit) recd) as [wu ss].
  unfold bind, emit, checkpoint; cbn.
  destruct (w_aborted w); cbn; [discriminate|].
  destruct onCycle as [f|]; cbn.
  - unfold perform; cbn.
    destruct (f _ (w_env w)) as [[ab [v|v]] e']; cbn; intro H; inversion H.
    split; [reflexivity|]. cbn. rewrite <- !app_assoc. eexists.
    split; [reflexivity|]. destruct ab; reflexivity.
  - intro H; inversion H. split; [reflexivity|]. cbn.
    rewrite <- !app_assoc. eexists. split; reflexivity.
Qed.

(** The samples recorded for the result built from the samples [recd] of a
    unit that was run to its end are [recd]. *)
Lemma all_recorded_make unit recd :
  List.length recd = run_bound (actualRunCount p) ->
  all_recorded p
    (make_results sqrtQ p unit
       (fst (shift_warmup (hasWarmupRun p) (u_warmup unit) recd))
       (snd (shift_warmup (hasWarmupRun p) (u_warmup unit) recd))) = recd.
Proof.
  rewrite run_bound_actual. unfold all_recorded, with_warmup, make_results.
  cbn [samples warmup].
  destruct (hasWarmupRun p); destruct recd as [|s rest]; cbn;
    try discriminate; reflexivity.
Qed.

Lemma run_unit_order unit rs (w w' : World E) rs' :
  run_unit Date_now timers sqrtQ fuel p onCycle unit rs w = (w', Val rs') ->
  exists r ext,
    rs' = rs ++ [r] /\ w_log w' = w_log w ++ ext /\
    milestones ext = unit_events unit (all_recorded p r).
Proof.
  unfold run_unit. unfold bind at 1, checkpoint.
  destruct (w_aborted w) eqn:Hw; [discriminate|].
  unfold bind.
  match goal with |- context [sample_unit _ _ _ _ _ ?w0] => set (w0' := w0) end.
  destruct (sample_unit Date_now timers fuel p unit w0') as [w1 [recd|e1|]]
    eqn:Hs; try discriminate.
  intro H.
  destruct (report_unit_mute _ _ _ _ _ _ H) as (Hw1 & ext2 & Hl2 & Hm2).
  apply report_unit_val in H.
  destruct (yields_sample_unit unit w0' w1 recd Hs Hw1)
    as (_ & ext1 & Hl1 & Hm1).
  destruct (sample_unit_spec Date_now timers p fuel unit w0')
    as (ext & _ & _ & _ & HV).
  rewrite Hs in HV. destruct (HV recd eq_refl) as [_ Hlen]. cbn in Hlen.
  specialize (Hlen Hw1).
  eexists. exists (EvCheck AtUnitStart false :: ext1 ++ ext2).
  split; [exact H|]. split.
  - rewrite Hl2, Hl1. subst w0'. cbn. rewrite <- !app_assoc. reflexivity.
  - rewrite all_recorded_make by exact Hlen.
    change (EvCheck AtUnitStart false :: ext1 ++ ext2)
      with ([EvCheck AtUnitStart false] ++ ext1 ++ ext2).
    rewrite !milestones_app, Hm1, Hm2. apply app_nil_r.
Qed.

Lemma run_units_order us : forall rs (w w' : World E) rs',
  run_units Date_now timers sqrtQ fuel p onCycle us rs w = (w', Val rs') ->
  exists new ext,
    rs' = rs ++ new /\ List.length new = List.length us /\
    w_log w' = w_log w ++ ext /\
    milestones ext = units_events p us new.
Proof.
  induction us as [|unit us IH]; intros rs w w' rs' H; cbn [run_units] in H.
  - inversion H; subst. exists [], []. rewrite !app_nil_r. auto.
  - unfold bind in H.
    destruct (run_unit Date_now timers sqrtQ fuel p onCycle unit rs w)
      as [w1 [rs1|e1|]] eqn:Hu; try discriminate.
    destruct (run_unit_order _ _ _ _ _ Hu) as (r & ext1 & -> & Hl1 & Hm1).
    destruct (IH _ _ _ _ H) as (new & ext2 & -> & Hlen & Hl2 & Hm2).
    exists (r :: new), (ext1 ++ ext2). rewrite <- !app_assoc.
    split; [reflexivity|]. split; [simpl; congruence|]. split.
    + rewrite Hl2, Hl1, <- app_assoc. reflexivity.
    + rewrite milestones_app, Hm1, Hm2. unfold units_events. cbn.
      reflexivity.
Qed.

(** X13. The calls and samples of a run that is fulfilled are those of its
    units, one unit after the other in the order of registration: for each unit,
    [prepare] when it is a function, one probing call of the unit function,
    then for each sample recorded (the warmup sample first, with a warmup
    run) as many calls of the unit function as the sample has hits followed
    by the sample, then [teardown] when it is a function. *)
Theorem calls_and_samples_in_order (e : E) (rs : list BenchmarkResults) :
  snd (run Date_now timers sqrtQ fuel p onCycle e) = Val rs ->
  List.length rs = List.length (units p) /\
  milestones (w_log (fst (run Date_now timers sqrtQ fuel p onCycle e))) =
    units_events p (units p) rs.
Proof.
  unfold run.
  destruct (run_units Date_now timers sqrtQ fuel p onCycle (units p) [] _)
    as [w' r] eqn:H.
  cbn [fst snd]. intros ->.
  destruct (run_units_order _ _ _ _ _ H) as (new & ext & -> & Hlen & Hl & Hm).
  cbn in Hl. cbn [app]. split; [exact Hlen|]. rewrite Hl. exact Hm.
Qed.

End Order.

(** ** Runs in which nothing goes wrong *)

Section Progress.

Context {E : Type}.
Variable Date_now : E -> Z.
Variable timers : E -> bool * E.
Variable sqrtQ : Qc -> Qc.
Variable fuel : nat.
Variable p : Benchmark E.
Variable onCycle : option (OnCycleFn E).
Variable T : Z.
Variable q : Qc.

Hypothesis timers_quiet : forall e, fst (timers e) = false.
Hypothesis window_finite : sampleRunTime p = Fin q.
Hypothesis fuel_pos : fuel <> O.
Hypothesis fuel_enough : (q <= inject_Z (Z.of_nat fuel * T))%Q.

Lemma proceeds_ret {A} (a : A) (P : A -> Prop) :
  P a -> proceeds (E := E) (ret a) P.
Proof. intros HP w Hw. exists w, a. auto. Qed.

Lemma proceeds_bind {A B} (m : M E A) (k : A -> M E B) P Q :
  proceeds m P -> (forall a, P a -> proceeds (k a) Q) ->
  proceeds (bind m k) Q.
Proof.
  intros Hm Hk w Hw. destruct (Hm w Hw) as (w1 & a & H1 & Hw1 & HP).
  destruct (Hk a HP w1 Hw1) as (w2 & b & H2 & Hw2 & HQ).
  exists w2, b. unfold bind. rewrite H1. auto.
Qed.

Lemma proceeds_checkpoint c : proceeds (E := E) (checkpoint c) (fun _ => True).
Proof.
  intros w Hw. unfold checkpoint. rewrite Hw. eexists. exists tt.
  split; [reflexivity|]. cbn. auto.
Qed.

Lemma proceeds_setTimeout0 : proceeds (setTimeout0 timers) (fun _ => True).
Proof.
  intros w Hw. unfold setTimeout0. assert (H := timers_quiet (w_env w)).
  destruct (timers (w_env w)) as [ab e']. cbn in H. subst ab.
  eexists. exists tt. split; [reflexivity|]. cbn. rewrite Hw. auto.
Qed.

Lemma proceeds_emit ev : proceeds (E := E) (emit ev) (fun _ => True).
Proof.
  intros w Hw. eexists. exists tt. split; [reflexivity|]. cbn. auto.
Qed.

Lemma proceeds_doRun unitFn fnIsPromise samples :
  steady Date_now T unitFn fnIsPromise ->
  proceeds (doRun Date_now fuel p unitFn fnIsPromise samples) (fun _ => True).
Proof.
  intros Hst w Hw. unfold doRun. unfold bind at 1, now.
  rewrite window_finite.
  destruct (doRun_loop_closes Date_now unitFn fnIsPromise T q fuel Hst
              (Date_now (w_env w)) 0 samples w) as (w' & s & H & Hw');
    auto; try lia.
  - eapply Qle_trans; [exact fuel_enough|]. rewrite <- Zle_Qle. lia.
  - exists w'. eexists. split; [exact H|]. auto.
Qed.

Lemma proceeds_for_runs unitFn fnIsPromise (a : Qc) :
  steady Date_now T unitFn fnIsPromise ->
  actualRunCount p = Fin a ->
  forall bound run samples,
    (Z.to_nat (Qceiling a - run) <= bound)%nat ->
    proceeds (for_runs Date_now timers fuel p unitFn fnIsPromise bound run
                samples) (fun _ => True).
Proof.
  intros Hst Ha. induction bound as [|bound IH]; intros run samples Hb;
    cbn [for_runs]; rewrite Ha; cbn [num_lt of_Z];
    destruct (Qc_ltb (Qz run) a) eqn:Hlt;
    try (apply proceeds_ret; exact I).
  - apply lt_ceiling in Hlt. lia.
  - apply lt_ceiling in Hlt.
    eapply proceeds_bind; [apply proceeds_checkpoint|]. intros _ _.
    eapply proceeds_bind; [apply proceeds_setTimeout0|]. intros _ _.
    eapply proceeds_bind; [apply proceeds_doRun; exact Hst|]. intros ss _.
    apply IH. lia.
Qed.

Lemma proceeds_optional who (f : value E) :
  (is_function f = true -> settles who f) ->
  proceeds (if is_function f
            then bind (call who f) (fun r => await who r)
            else ret VUndefined) (fun _ => True).
Proof.
  intro H. destruct (is_function f); [apply H; reflexivity|].
  apply proceeds_ret. exact I.
Qed.

Lemma proceeds_sample_unit unit :
  behaves Date_now T unit ->
  proceeds (sample_unit Date_now timers fuel p unit) (fun _ => True).
Proof.
  intros (Hp & (b & Hcall & Hst) & Ht). unfold sample_unit.
  eapply proceeds_bind; [apply proceeds_optional; exact Hp|]. intros _ _.
  eapply proceeds_bind; [exact Hcall|]. cbn. intros probe ->.
  destruct (actualRunCount_Fin p) as [a Ha].
  eapply proceeds_bind.
  { apply (proceeds_for_runs _ _ a Hst Ha). rewrite Ha. cbn. lia. }
  intros ss _.
  eapply proceeds_bind; [apply proceeds_optional; exact Ht|]. intros _ _.
  apply proceeds_ret. exact I.
Qed.

Hypothesis onCycle_returns : returns onCycle.

Lemma proceeds_report_unit unit rs recd :
  proceeds (report_unit sqrtQ p onCycle unit rs recd)
    (fun rs' => List.length rs' = S (List.length rs)).
Proof.
  unfold report_unit.
  destruct (shift_warmup (hasWarmupRun p) (u_warmup unit) recd) as [wu ss].
  eapply proceeds_bind; [apply proceeds_emit|]. intros _ _.
  eapply proceeds_bind; [apply proceeds_checkpoint|]. intros _ _.
  eapply proceeds_bind; [apply proceeds_emit|]. intros _ _.
  assert (Hlen : forall r : BenchmarkResults,
             List.length (rs ++ [r]) = S (List.length rs))
    by (intro r; rewrite length_app; simpl; lia).
  destruct onCycle as [f|]; [|apply proceeds_ret; apply Hlen].
  eapply proceeds_bind; [apply proceeds_emit|]. intros _ _.
  eapply proceeds_bind; [|intros _ _; apply proceeds_ret; apply Hlen].
  instantiate (1 := fun _ => True).
  intros w Hw. unfold perform.
  destruct (onCycle_returns (make_results sqrtQ p unit wu ss) (w_env w))
    as (v & e' & ->).
  eexists. exists v. split; [reflexivity|]. cbn. rewrite Hw. auto.
Qed.

Lemma proceeds_run_units us : forall rs,
  Forall (behaves Date_now T) us ->
  proceeds (run_units Date_now timers sqrtQ fuel p onCycle us rs)
    (fun rs' => List.length rs' = (List.length rs + List.length us)%nat).
Proof.
  induction us as [|unit us IH]; intros rs Hall; cbn [run_units].
  - apply proceeds_ret. simpl. lia.
  - inversion Hall as [|u us' Hu Hus]; subst.
    eapply proceeds_bind.
    + unfold run_unit.
      eapply proceeds_bind; [apply proceeds_checkpoint|]. intros _ _.
      eapply proceeds_bind; [apply proceeds_sample_unit; exact Hu|].
      intros recd _. apply proceeds_report_unit.
    + cbn. intros rs1 Hlen w Hw.
      destruct (IH rs1 Hus w Hw) as (w' & rs' & H & Hw' & Hl).
      exists w', rs'. split; [exact H|]. split; [exact Hw'|].
      rewrite Hl, Hlen. simpl. lia.
Qed.


End Progress.

(** ** What follows a call of [abort()] *)

Lemma late_count_app pick flag (l1 l2 : list Event) :
  late_count pick flag (l1 ++ l2) =
  (late_count pick flag l1 +
   late_count pick (flag || existsb is_abort l1) l2)%nat.
Proof.
  revert flag. induction l1 as [|ev l1 IH]; intro flag; cbn [app late_count existsb].
  - rewrite orb_false_r. reflexivity.
  - rewrite IH, orb_assoc. lia.
Qed.

(** Nothing is late while the flag is unset. *)
Lemma late_count_unset pick (l : list Event) :
  existsb is_abort l = false -> late_count pick false l = O.
Proof.
  induction l as [|ev l IH]; cbn [late_count existsb]; [reflexivity|].
  intro H. apply orb_false_iff in H. destruct H as [-> H].
  cbn. apply IH. exact H.
Qed.

Section Late.

Context {E : Type}.
Variable Date_now : E -> Z.
Variable timers : E -> bool * E.
Variable pc : Callee -> bool.
Variable ps : bool.

Lemma late_conseq {A} (m : M E A) bU bA st bU' bA' (st' : bool) :
  late_at (picks pc ps) m bU bA st ->
  (bU <= bU')%nat -> (bA <= bA')%nat -> (st' = true -> st = true) ->
  late_at (picks pc ps) m bU' bA' st'.
Proof.
  intros Hm HU HA Hst w. destruct (Hm w) as (ext & He & Hl & Hs).
  exists ext. split; [exact He|]. split.
  - destruct (w_aborted w); lia.
  - intros H. apply Hs. apply Hst. exact H.
Qed.

Lemma late_bind {A B} (m : M E A) (k : A -> M E B) bU1 bA1 st1 bU2 bA2 st2 :
  late_at (picks pc ps) m bU1 bA1 st1 ->
  (forall a, late_at (picks pc ps) (k a) bU2 bA2 st2) ->
  late_at (picks pc ps) (bind m k)
    (Nat.max bU2 (bU1 + bA2)) (if st1 then bA1 else (bA1 + bA2)%nat)
    (st1 || st2).
Proof.
  intros Hm Hk w. destruct (Hm w) as (ext1 & He1 & Hl1 & Hs1).
  unfold bind. destruct (m w) as [w1 [a| |]] eqn:Hmw; cbn [fst snd] in *.
  - destruct (Hk a w1) as (ext2 & He2 & Hl2 & Hs2).
    exists (ext1 ++ ext2). split; [eapply effect_trans; eassumption|].
    destruct He1 as [Hlog1 Hab1].
    rewrite late_count_app, <- Hab1. split.
    + destruct (w_aborted w) eqn:Hw.
      * cbn in Hab1. rewrite Hab1 in *.
        destruct st1; [exfalso; exact (Hs1 eq_refl eq_refl a eq_refl)|]. lia.
      * cbn in Hab1. destruct (w_aborted w1) eqn:Hw1.
        -- lia.
        -- rewrite (late_count_unset (picks pc ps) ext1) by (symmetry; exact Hab1). lia.
    + intros Hst Hw b. apply orb_true_iff in Hst. destruct Hst as [->| ->].
      * exfalso. exact (Hs1 eq_refl Hw a eq_refl).
      * apply Hs2; [reflexivity|]. rewrite Hab1, Hw. reflexivity.
  - exists ext1. split; [exact He1|]. split.
    + destruct (w_aborted w), st1; lia.
    + intros _ _ b. discriminate.
  - exists ext1. split; [exact He1|]. split.
    + destruct (w_aborted w), st1; lia.
    + intros _ _ b. discriminate.
Qed.

Lemma late_ret {A} (a : A) : late_at (E := E) (picks pc ps) (ret a) 0 0 false.
Proof.
  intro w. exists []. split; [apply effect_refl|]. split.
  - destruct (w_aborted w); reflexivity.
  - discriminate.
Qed.

Lemma late_stuck {A} :
  late_at (E := E) (A := A) (picks pc ps) (fun w => (w, Stuck)) 0 0 true.
Proof.
  intro w. exists []. split; [apply effect_refl|]. split.
  - destruct (w_aborted w); reflexivity.
  - intros _ _ a. discriminate.
Qed.

Lemma late_throw {A} exn :
  late_at (E := E) (A := A) (picks pc ps) (throw exn) 0 0 true.
Proof.
  intro w. exists []. split; [apply effect_refl|]. split.
  - destruct (w_aborted w); reflexivity.
  - intros _ _ a. discriminate.
Qed.

Lemma late_emit ev :
  is_abort ev = false ->
  late_at (E := E) (picks pc ps) (emit ev) 0 (count_of (picks pc ps ev)) false.
Proof.
  intros Hev w. exists [ev]. split.
  - split; [reflexivity|]. cbn. rewrite Hev, !orb_false_r. reflexivity.
  - split; [|discriminate]. cbn. destruct (w_aborted w); cbn; [|lia].
    destruct (picks pc ps ev); cbn; lia.
Qed.

Lemma late_perform who (body : Body E) :
  late_at (picks pc ps) (perform who body) 0 0 false.
Proof.
  intro w. unfold perform.
  destruct (body (w_env w)) as [[ab r] e'].
  exists (if ab then [EvAbort] else []).
  assert (He : effect w (world_step ab e' w) (if ab then [EvAbort] else [])).
  { split; [reflexivity|]. cbn. destruct ab; cbn; reflexivity. }
  destruct r; cbn [fst snd]; (split; [exact He|]); (split; [|discriminate]);
    destruct ab, (w_aborted w); cbn; lia.
Qed.

Lemma late_call who (f : value E) :
  late_at (picks pc ps) (call who f) 0 (count_of (pc who)) false.
Proof.
  destruct f; cbn [call];
    try (eapply late_conseq; [apply late_throw | lia | lia | discriminate]).
  eapply late_conseq.
  - eapply late_bind; [apply late_emit; reflexivity|].
    intros _. apply late_perform.
  - cbn. lia.
  - cbn. lia.
  - discriminate.
Qed.

Lemma late_await who (v : value E) :
  late_at (picks pc ps) (await who v) 0 0 false.
Proof.
  destruct v; cbn [await]; try apply late_ret; try apply late_perform;
    destruct (lookup "then" _); try apply late_ret; apply late_perform.
Qed.

Lemma late_checkpoint c :
  late_at (E := E) (picks pc ps) (checkpoint c) 0 0 true.
Proof.
  intro w. exists [EvCheck c (w_aborted w)]. unfold checkpoint.
  destruct (w_aborted w) eqn:Hw; cbn [fst snd].
  - split; [split; cbn; [reflexivity | rewrite Hw; reflexivity]|].
    split; [cbn; lia|]. intros _ _ a. discriminate.
  - split; [split; cbn; [reflexivity | rewrite Hw; reflexivity]|].
    split; [cbn; lia|]. discriminate.
Qed.

(** A check that finds the flag unset leaves it unset. *)
Lemma late_checked {A} c (k : M E A) bU bA st :
  late_at (picks pc ps) k bU bA st ->
  late_at (picks pc ps) (bind (checkpoint c) (fun _ => k)) bU 0 true.
Proof.
  intros Hk w. unfold bind, checkpoint. destruct (w_aborted w) eqn:Hw.
  - exists [EvCheck c true]. cbn [fst snd].
    split; [split; cbn; [reflexivity | rewrite Hw; reflexivity]|].
    split; [cbn; lia|]. intros _ _ a. discriminate.
  - match goal with |- context [k ?w0] => set (w0' := w0) end.
    destruct (Hk w0') as (ext & [Hlog Hab] & Hl & _).
    exists (EvCheck c false :: ext).
    destruct (k w0') as [w1 r]; cbn [fst snd] in *.
    assert (He : effect w w1 (EvCheck c false :: ext)).
    { split.
      - rewrite Hlog. subst w0'. cbn. rewrite <- app_assoc. reflexivity.
      - rewrite Hab. subst w0'. cbn. rewrite ?Hw. reflexivity. }
    assert (Hc : (late_count (picks pc ps) false (EvCheck c false :: ext)
                  <= bU)%nat).
    { subst w0'. cbn in Hl. rewrite ?Hw in Hl. cbn. exact Hl. }
    destruct r; (split; [exact He|]); (split; [exact Hc|]);
      intros _ H; discriminate.
Qed.

Lemma late_setTimeout0 : late_at (picks pc ps) (setTimeout0 timers) 0 0 false.
Proof.
  intro w. unfold setTimeout0. destruct (timers (w_env w)) as [ab e'].
  exists (if ab then [EvAbort] else []). cbn [fst snd].
  split; [split; [reflexivity|]; cbn; destruct ab; cbn; reflexivity|].
  split; [|discriminate]. destruct ab, (w_aborted w); cbn; lia.
Qed.

Lemma late_now : late_at (picks pc ps) (now Date_now) 0 0 false.
Proof.
  intro w. exists []. split; [apply effect_refl|]. split.
  - destruct (w_aborted w); reflexivity.
  - discriminate.
Qed.

Lemma late_optional who (f : value E) :
  late_at (picks pc ps)
    (if is_function f
     then bind (call who f) (fun r => await who r)
     else ret VUndefined) 0 (count_of (pc who)) false.
Proof.
  destruct (is_function f).
  - eapply late_conseq.
    + eapply late_bind; [apply late_call|]. intro r. apply late_await.
    + cbn. lia.
    + cbn. lia.
    + discriminate.
  - eapply late_conseq; [apply late_ret | lia | lia | discriminate].
Qed.

Variable fuel : nat.
Variable p : Benchmark E.

Section OneUnitLate.

Variable unitFn : value E.
Variable fnIsPromise : bool.

Lemma late_call_unit :
  late_at (picks pc ps) (call_unit unitFn fnIsPromise) 0 (count_of (pc Unit))
    false.
Proof.
  unfold call_unit. eapply late_conseq.
  - eapply late_bind; [apply late_call|]. intro res.
    instantiate (1 := false). instantiate (1 := O). instantiate (1 := O).
    destruct fnIsPromise; [apply late_await | apply late_ret].
  - cbn. lia.
  - cbn. lia.
  - discriminate.
Qed.

(** Once the flag is set a window makes no call; a window in which the flag
    is set records at most one sample afterwards. *)
Lemma late_doRun_loop calls : forall startTime endTime h samples,
  late_at (picks pc ps)
    (doRun_loop Date_now unitFn fnIsPromise calls startTime endTime h
       samples) (count_of ps) 0 false.
Proof.
  induction calls as [|calls IH]; intros startTime endTime h samples w.
  - cbn [doRun_loop]. destruct (w_aborted w) eqn:Hw; cbn [fst snd];
      exists []; (split; [apply effect_refl|]); rewrite ?Hw;
      (split; [cbn; lia | discriminate]).
  - destruct (w_aborted w) eqn:Hw.
    + cbn [doRun_loop]. rewrite Hw. cbn [fst snd].
      exists []. split; [apply effect_refl|]. rewrite ?Hw.
      split; [cbn; lia | discriminate].
    + rewrite doRun_loop_step by exact Hw.
      match goal with |- context [fst (?m w)] =>
        assert (Hy : late_at (picks pc ps) m (count_of ps) (count_of (pc Unit) +
                                                    count_of ps) false)
      end.
      { eapply late_conseq.
        - eapply late_bind; [apply late_call_unit|]. intros _.
          eapply late_bind; [apply late_now|]. intro now'.
          instantiate (1 := false). instantiate (1 := count_of ps).
          instantiate (1 := count_of ps).
          destruct (num_ge (of_Z now') endTime).
          + eapply late_conseq.
            * eapply late_bind; [apply late_emit; reflexivity|].
              intros _. apply late_ret.
            * cbn. lia.
            * cbn. lia.
            * discriminate.
          + eapply late_conseq; [apply IH | lia | lia | discriminate].
        - cbn. lia.
        - cbn. lia.
        - discriminate. }
      destruct (Hy w) as (ext & He & Hl & Hs). rewrite Hw in Hl.
      exists ext. split; [exact He|]. split; [exact Hl | discriminate].
Qed.

Lemma late_doRun samples :
  late_at (picks pc ps) (doRun Date_now fuel p unitFn fnIsPromise samples)
    (count_of ps) 0 false.
Proof.
  unfold doRun. eapply late_conseq.
  - eapply late_bind; [apply late_now|]. intro startTime.
    apply late_doRun_loop.
  - cbn. lia.
  - cbn. lia.
  - discriminate.
Qed.

(** The loop over the runs, begun with the flag set, stops at its first
    check when a run is left to do. *)
Lemma late_for_runs bound : forall run samples,
  late_at (picks pc ps)
    (for_runs Date_now timers fuel p unitFn fnIsPromise bound run samples)
    (count_of ps) 0 (num_lt (of_Z run) (actualRunCount p)).
Proof.
  induction bound as [|bound IH]; intros run samples; cbn [for_runs];
    destruct (num_lt (of_Z run) (actualRunCount p)).
  - eapply late_conseq; [apply late_stuck | lia | lia | auto].
  - eapply late_conseq; [apply late_ret | lia | lia | auto].
  - eapply late_conseq.
    + eapply late_bind; [apply late_checkpoint|]. intros _.
      eapply late_bind; [apply late_setTimeout0|]. intros _.
      eapply late_bind; [apply late_doRun|]. intro samples'.
      eapply late_conseq; [apply IH | apply Nat.le_refl | apply Nat.le_refl |].
      instantiate (1 := false). discriminate.
    + cbn. lia.
    + cbn. lia.
    + reflexivity.
  - eapply late_conseq; [apply late_ret | lia | lia | auto].
Qed.

End OneUnitLate.

Lemma first_run_is_due : num_lt (of_Z 0) (actualRunCount p) = true.
Proof.
  assert (H := run_bound_actual p).
  destruct (actualRunCount_Fin p) as [a Ha]. rewrite Ha in *.
  cbn [num_lt of_Z]. apply lt_ceiling.
  unfold run_bound in H. unfold clamped_runs in H.
  assert (H1 := clamped_ge_1 (runsPerUnit p)).
  destruct (hasWarmupRun p); lia.
Qed.

(** The sampling part of a unit. *)
Lemma late_sample_unit unit :
  late_at (picks pc ps) (sample_unit Date_now timers fuel p unit)
    (Nat.max (count_of ps + count_of (pc Teardown)) (count_of (pc Unit)))
    (count_of (pc Prepare) + count_of (pc Unit)) false.
Proof.
  unfold sample_unit. eapply late_conseq.
  - eapply late_bind; [apply late_optional|]. intros _.
    eapply late_bind; [apply late_call|]. intro probe.
    eapply late_bind; [apply late_for_runs|]. intro ss.
    eapply late_bind; [apply late_optional|]. intros _.
    apply late_ret.
  - rewrite first_run_is_due. cbn. lia.
  - rewrite first_run_is_due. cbn. lia.
  - discriminate.
Qed.

Variable sqrtQ : Qc -> Qc.
Variable onCycle : option (OnCycleFn E).

Lemma late_report_unit unit rs recd :
  late_at (picks pc ps) (report_unit sqrtQ p onCycle unit rs recd) 0 0 true.
Proof.
  unfold report_unit.
  destruct (shift_warmup (hasWarmupRun p) (u_warmup unit) recd) as [wu ss].
  eapply late_conseq.
  - eapply late_bind; [apply late_emit; reflexivity|]. intros _.
    eapply late_bind; [apply late_checkpoint|]. intros _.
    eapply late_bind; [apply late_emit; reflexivity|]. intros _.
    instantiate (1 := false). instantiate (1 := O). instantiate (1 := O).
    destruct onCycle as [f|]; [|apply late_ret].
    eapply late_conseq.
    + eapply late_bind; [apply late_emit; reflexivity|]. intros _.
      eapply late_bind; [apply late_perform|]. intros _. apply late_ret.
    + cbn. lia.
    + cbn. lia.
    + discriminate.
  - cbn. lia.
  - cbn. lia.
  - reflexivity.
Qed.

Lemma late_run_units us : forall rs,
  late_at (picks pc ps) (run_units Date_now timers sqrtQ fuel p onCycle us rs)
    (Nat.max (count_of ps + count_of (pc Teardown)) (count_of (pc Unit)))
    0 false.
Proof.
  induction us as [|unit us IH]; intro rs; cbn [run_units].
  - eapply late_conseq; [apply late_ret | lia | lia | discriminate].
  - eapply late_conseq.
    + eapply late_bind; [|intro rs1; apply IH].
      unfold run_unit. eapply late_checked.
      eapply late_bind; [apply late_sample_unit|]. intro recd.
      apply late_report_unit.
    + cbn. lia.
    + cbn. lia.
    + discriminate.
Qed.

(** The events told by [pick] that follow the first call of [abort()] in a
    run. *)
Lemma late_run (e : E) :
  (late_count (picks pc ps) false
     (w_log (fst (run Date_now timers sqrtQ fuel p onCycle e))) <=
   Nat.max (count_of ps + count_of (pc Teardown)) (count_of (pc Unit)))%nat.
Proof.
  unfold run.
  destruct (late_run_units (units p) []
              {| w_aborted := false; w_env := e; w_log := [] |})
    as (ext & [Hlog _] & Hl & _).
  cbn in Hlog, Hl. rewrite Hlog. exact Hl.
Qed.

End Late.

Section Promptness.

Context {E : Type}.
Variable Date_now : E -> Z.
Variable timers : E -> bool * E.
Variable sqrtQ : Qc -> Qc.
Variable fuel : nat.
Variable p : Benchmark E.
Variable onCycle : option (OnCycleFn E).
Variable e : E.


End Promptness.

(** ** The properties at work *)

(** A chain that sets the warmup time twice, registers a unit and calls
    [abort]. *)
Lemma chain_settings_witness :
  let ops := [OpSetWarmupTime (Qz 1); OpAdd "a" (busy 4);
              OpSetWarmupTime (Qz 2); OpAbort] in
  let p' := abort (setWarmupTime
                     (sim_add (setWarmupTime (new_Benchmark Sim) (Qz 1))
                        "a" (busy 4)) (Qz 2)) in
  chain (new_Benchmark Sim) ops = inr p' /\
  getWarmupTime p' = Qz 2 /\
  aborted p' = true /\
  map u_name (units p') = ["a"].
Proof.
  intros ops p'.
  assert (H : chain (new_Benchmark Sim) ops = inr p') by reflexivity.
  split; [exact H|].
  destruct (chain_settings ops (new_Benchmark Sim) p' H)
    as (Hw & _ & _ & Ha & Hu).
  split; [exact Hw|]. split; [exact Ha | exact Hu].
Defined.


(** Two units give two results, under their names. *)
Lemma results_in_registration_order_witness :
  let p := bench 10 20 2 [("a", busy 4); ("b", sleeper 3)] in
  let o := sim_run 100 p None at_1000 in
  snd o = Val (fulfilled o) /\
  map name (fulfilled o) = ["a"; "b"].
Proof.
  intros p o.
  assert (H : snd o = Val (fulfilled o)) by (vm_compute; reflexivity).
  split; [exact H|].
  exact (results_in_registration_order clock sim_timers sim_sqrt 100 p
           None at_1000 (fulfilled o) H).
Defined.

(** A run without a warmup run. *)
Lemma no_warmup_run_reports_all_witness :
  let p := bench 0 20 2 [("a", busy 4)] in
  let o := sim_run 100 p None at_1000 in
  snd o = Val (fulfilled o) /\
  hasWarmupRun p = false /\
  recorded (w_log (fst o)) = flat_map samples (fulfilled o) /\
  map warmup (fulfilled o) = [None].
Proof.
  intros p o.
  assert (H : snd o = Val (fulfilled o)) by (vm_compute; reflexivity).
  assert (HW : hasWarmupRun p = false) by reflexivity.
  split; [exact H|]. split; [exact HW|].
  exact (no_warmup_run_reports_all clock sim_timers sim_sqrt 100 p None
           at_1000 (fulfilled o) H HW).
Defined.

(** A warmup time of 1 ms and one of 50 ms give the same run. *)
Lemma warmup_amount_is_not_used_witness :
  Qc_ltb (Qz 0) (Qz 1) = true /\
  Qc_ltb (Qz 0) (Qz 50) = true /\
  sim_run 100 (setWarmupTime demo (Qz 1)) None at_1000 =
  sim_run 100 (setWarmupTime demo (Qz 50)) None at_1000.
Proof.
  assert (Ha : Qc_ltb (Qz 0) (Qz 1) = true) by reflexivity.
  assert (Hb : Qc_ltb (Qz 0) (Qz 50) = true) by reflexivity.
  split; [exact Ha|]. split; [exact Hb|].
  exact (warmup_amount_is_not_used clock sim_timers sim_sqrt 100 demo None
           at_1000 (Qz 1) (Qz 50) Ha Hb).
Defined.

(** A call of [busy 4] takes 4 ms. *)
Lemma busy_takes (ms : Z) : takes clock ms (busy ms) false.
Proof.
  intros w w' r H. unfold call_unit, busy, bind in H. cbn in H.
  inversion H; subst. cbn. lia.
Defined.

Lemma busy_steady (ms : Z) : steady clock ms (busy ms) false.
Proof.
  intros w Hw. eexists. eexists. split; [reflexivity|].
  cbn. rewrite Hw. split; [reflexivity | lia].
Defined.

(** One window of 10 ms of the demo: three calls of 4 ms. *)
Lemma window_hits_bounded_witness :
  let w := {| w_aborted := false; w_env := at_1000; w_log := [] |} in
  let o := doRun clock 100 demo (busy 4) false [] w in
  let s := {| hits := 3; duration := 12 |} in
  takes clock 4 (busy 4) false /\
  o = (fst o, Val [s]) /\
  ([s] = [] \/
   exists s', [s] = [] ++ [s'] /\ hits s' * 4 <= duration s' /\
     (hits s' = 1 \/
      num_lt (of_Z ((hits s' - 1) * 4)) (sampleRunTime demo) = true)).
Proof.
  intros w o s.
  assert (H : o = (fst o, Val [s])) by (vm_compute; reflexivity).
  split; [exact (busy_takes 4)|]. split; [exact H|].
  exact (window_hits_bounded clock demo (busy 4) false 4 100 [] [s] w (fst o)
           (busy_takes 4) H).
Defined.

Lemma demo_window : sampleRunTime demo = Fin (Qz 10).
Proof. apply number_eqb_eq. vm_compute. reflexivity. Defined.

Lemma demo_fuel : (Qz 10 <= inject_Z (Z.of_nat 100 * 4))%Q.
Proof. apply Qle_bool_iff. vm_compute. reflexivity. Defined.

(** A window of the demo closes. *)
Lemma window_closes_witness :
  let w := {| w_aborted := false; w_env := at_1000; w_log := [] |} in
  steady clock 4 (busy 4) false /\
  sampleRunTime demo = Fin (Qz 10) /\
  100%nat <> O /\
  (Qz 10 <= inject_Z (Z.of_nat 100 * 4))%Q /\
  w_aborted w = false /\
  exists w' s,
    doRun clock 100 demo (busy 4) false [] w = (w', Val ([] ++ [s])) /\
    w_aborted w' = false.
Proof.
  intro w.
  assert (Hf : 100%nat <> O) by discriminate.
  assert (Hw : w_aborted w = false) by reflexivity.
  split; [exact (busy_steady 4)|]. split; [exact demo_window|].
  split; [exact Hf|]. split; [exact demo_fuel|]. split; [exact Hw|].
  exact (window_closes clock demo (busy 4) false 4 100 (Qz 10) [] w
           (busy_steady 4) demo_window Hf demo_fuel Hw).
Defined.



(** The calls and samples of the demo run: the probing call, then three
    windows of three calls. *)
Lemma calls_and_samples_in_order_witness :
  let o := sim_run 100 demo None at_1000 in
  snd o = Val (fulfilled o) /\
  List.length (fulfilled o) = List.length (units demo) /\
  milestones (w_log (fst o)) = units_events demo (units demo) (fulfilled o).
Proof.
  intro o.
  assert (H : snd o = Val (fulfilled o)) by (vm_compute; reflexivity).
  split; [exact H|].
  exact (calls_and_samples_in_order clock sim_timers 100 demo sim_sqrt None
           at_1000 (fulfilled o) H).
Defined.

Lemma busy_behaves (name : string) (ms : Z) :
  behaves clock ms
    {| u_name := name; u_prepare := VUndefined; u_unit := busy ms;
       u_teardown := VUndefined; u_warmup := None |}.
Proof.
  split; [discriminate|]. split; [|discriminate].
  exists false. split; [|exact (busy_steady ms)].
  intros w Hw. eexists. eexists. split; [reflexivity|].
  cbn. rewrite Hw. split; reflexivity.
Defined.

